(** * Expressive State Mapper: feature extraction and baseline analysis

    A shallow embedding of [src/python/feature_extractor.py] and
    [src/python/baseline_analyzer.py].

    Conventions of the embedding.
    - Python numbers (JSON ints and floats, and the floats computed from
      them) are exact rationals [Q]; rounding error, infinities and NaN of
      binary64 are outside the model, except for the NaN that numpy's mean
      of an empty slice returns, which is kept as a value of its own.  So
      is the [OverflowError] that Python raises for an integer beyond the
      range of a float: the exceptions of the model are
      [ZeroDivisionError], [IndexError] and [ValueError].
    - [math.sqrt], [math.acos] and [np.log] are not rational functions, and
      the decimal digits that [int] accepts depend on the version of the
      Unicode database: the model takes them from a [MathLib] record.
      Every statement holds for any implementation of the record.
    - A color is a [str] that the code slices and parses: it is the list of
      its code points.  Dict keys and tool names are only compared, and
      are strings of the embedding.
    - A [dict] with string keys is a [gmap string _]: no statement below
      depends on the insertion order of a dict.
    - Exceptions are values of [result]; a point always has its ["x"],
      ["y"] and ["t"] entries, so [KeyError] does not occur. *)

From Stdlib Require Import QArith ZArith String Ascii List Lia Lqa Qround Qabs.
From stdpp Require Import base option gmap sets list strings sorting.

Open Scope Q_scope.

(** ** Python values and exceptions *)

Inductive PyError : Type :=
  | ZeroDivisionError
  | IndexError
  | ValueError.

Inductive result (A : Type) : Type :=
  | Ok (a : A)
  | Raise (e : PyError).

Arguments Ok {A} a.
Arguments Raise {A} e.

#[global] Instance result_ret : MRet result := fun A a => Ok a.

#[global] Instance result_bind : MBind result := fun A B k r =>
  match r with
  | Ok a => k a
  | Raise e => Raise e
  end.

(** A [for] loop whose body may raise: the accumulator is threaded through
    the elements from left to right and the first exception ends the loop. *)
Fixpoint for_each {A S : Type} (body : S -> A -> result S) (l : list A) (s : S)
  : result S :=
  match l with
  | [] => Ok s
  | a :: l' => s' ← body s a; for_each body l' s'
  end.

(** A float that numpy returns: a number, or the NaN of an empty mean. *)
Inductive npfloat : Type :=
  | Finite (q : Q)
  | NaN.

(** What the model takes from the Python runtime as it is: the
    transcendental functions of [math] and [numpy] that the code calls, and
    the table of decimal digits of the Unicode database, which [int]
    consults for the characters outside of ASCII
    ([unicode_todecimal ch] is the digit value of [ch], [None] when [ch] is
    no decimal digit). *)
Record MathLib : Type := {
  math_sqrt : Q -> Q;
  math_acos : Q -> Q;
  np_log : Q -> Q;
  unicode_todecimal : N -> option N
}.

#[global] Instance Qle_decision : RelDecision Qle.
Proof.
  intros a b. destruct (Qlt_le_dec b a) as [H | H].
  - right. apply Qlt_not_le. exact H.
  - left. exact H.
Defined.

#[global] Instance Qlt_decision : RelDecision Qlt.
Proof.
  intros a b. destruct (Qlt_le_dec a b) as [H | H].
  - left. exact H.
  - right. apply Qle_not_lt. exact H.
Defined.

#[global] Instance Qeq_decision : RelDecision Qeq := Qeq_dec.

#[global] Instance Qle_transitive : Transitive Qle := Qle_trans.

#[global] Instance Qle_total : Total Qle.
Proof.
  intros a b. destruct (Qlt_le_dec a b) as [H | H].
  - left. apply Qlt_le_weak. exact H.
  - right. exact H.
Qed.

Definition Qltb (a b : Q) : bool := bool_decide (a < b).
Definition Qleb (a b : Q) : bool := bool_decide (a <= b).
Definition Qeqb (a b : Q) : bool := bool_decide (a == b).

Definition Qnat (n : nat) : Q := inject_Z (Z.of_nat n).

(** [a / b] on Python numbers. *)
Definition py_truediv (a b : Q) : result Q :=
  if Qeqb b 0 then Raise ZeroDivisionError else Ok (a / b).

(** [int(q)]: truncation towards zero. *)
Definition py_int (q : Q) : Z := Z.quot (Qnum q) (Zpos (Qden q)).

(** [round(q)]: to the nearest integer, a tie to the even one. *)
Definition py_round (q : Q) : Z :=
  let f := Qfloor q in
  let d := q - inject_Z f in
  if Qltb d (1 # 2) then f
  else if Qltb (1 # 2) d then (f + 1)%Z
  else if Z.even f then f else (f + 1)%Z.

(** [a % b] on floats: the result has the sign of [b]. *)
Definition py_mod (a b : Q) : Q := a - b * inject_Z (Qfloor (a / b)).

(** [max(a, b)] and [min(a, b)]: the first argument wins a tie. *)
Definition py_max (a b : Q) : Q := if Qltb a b then b else a.
Definition py_min (a b : Q) : Q := if Qltb b a then b else a.

Definition py_sum (l : list Q) : Q := foldl Qplus 0 l.

(** [l[:n]] for an integer [n] of either sign. *)
Definition py_slice_to {A : Type} (n : Z) (l : list A) : list A :=
  if (0 <=? n)%Z then take (Z.to_nat n) l
  else take (Z.to_nat (Z.of_nat (length l) + n)) l.

(** [l[-1]] of a list known to be non-empty. *)
Definition py_last {A : Type} (d : A) (l : list A) : A := List.last l d.

(** *** [str] and [int(s, 16)] *)

(** A Python [str] is the list of its code points; [str] is the [str] of a
    literal. *)
Definition pystr : Type := list N.

Definition ord (c : ascii) : N := N_of_ascii c.

Definition str (s : string) : pystr := map ord (list_ascii_of_string s).

(** [s[a:b]] for [0 <= a <= b]. *)
Definition py_substr (a b : nat) (s : pystr) : pystr := take (b - a) (drop a s).

(** [s.startswith(prefix)] *)
Fixpoint startswith (s prefix : pystr) {struct prefix} : bool :=
  match prefix, s with
  | [], _ => true
  | p :: prefix', c :: s' => (c =? p)%N && startswith s' prefix'
  | _ :: _, [] => false
  end.

(** [Py_ISSPACE]: the white space of ASCII that [PyLong_FromString] skips. *)
Definition Py_ISSPACE (c : N) : bool :=
  ((9 <=? c) && (c <=? 13))%N || (c =? 32)%N.

(** [Py_UNICODE_ISSPACE]: the white space of Unicode. *)
Definition Py_UNICODE_ISSPACE (ch : N) : bool :=
  ((0x09 <=? ch) && (ch <=? 0x0D))%N || ((0x1C <=? ch) && (ch <=? 0x20))%N
  || (ch =? 0x85)%N || (ch =? 0xA0)%N || (ch =? 0x1680)%N
  || ((0x2000 <=? ch) && (ch <=? 0x200A))%N
  || (ch =? 0x2028)%N || (ch =? 0x2029)%N || (ch =? 0x202F)%N
  || (ch =? 0x205F)%N || (ch =? 0x3000)%N.

(** The value of a character that is a digit in base 16. *)
Definition hex_digit (c : N) : option Z :=
  let n := Z.of_N c in
  if ((48 <=? n) && (n <=? 57))%Z then Some (n - 48)%Z
  else if ((65 <=? n) && (n <=? 70))%Z then Some (n - 55)%Z
  else if ((97 <=? n) && (n <=? 102))%Z then Some (n - 87)%Z
  else None.

Fixpoint lstrip (s : list N) : list N :=
  match s with
  | c :: s' => if Py_ISSPACE c then lstrip s' else s
  | [] => []
  end.

Definition all_space (s : list N) : bool := forallb Py_ISSPACE s.

(** The digit loop of CPython's [PyLong_FromString]: digits with single
    underscores between them, then only white space.  [prev_us] tells
    whether the previous character was an underscore, [seen] whether a digit
    was read, [acc] is the value so far. *)
Fixpoint hex_digits (s : list N) (prev_us seen : bool) (acc : Z) : option Z :=
  match s with
  | [] => if prev_us || negb seen then None else Some acc
  | c :: s' =>
      if (c =? ord "_")%N then
        if prev_us then None else hex_digits s' true seen acc
      else
        match hex_digit c with
        | Some d => hex_digits s' false true (16 * acc + d)%Z
        | None =>
            if prev_us || negb seen then None
            else if all_space s then Some acc else None
        end
  end.

(** [PyLong_FromString(s, &end, 16)] followed by the test that [end] is the
    end of the buffer: white space, a sign, the prefix [0x] with at most one
    underscore after it, the digits, white space.  A NUL character is
    neither a digit nor white space, so that a buffer with a NUL in it is
    rejected here as it is there. *)
Definition PyLong_FromString (s : list N) : result Z :=
  let s1 := lstrip s in
  let '(sign, s2) :=
    match s1 with
    | c :: r =>
        if (c =? ord "+")%N then (1%Z, r)
        else if (c =? ord "-")%N then ((-1)%Z, r)
        else (1%Z, s1)
    | [] => (1%Z, s1)
    end in
  let s3 :=
    match s2 with
    | c0 :: c1 :: r =>
        if (c0 =? ord "0")%N && ((c1 =? ord "x")%N || (c1 =? ord "X")%N) then
          match r with
          | c2 :: r' => if (c2 =? ord "_")%N then r' else r
          | [] => r
          end
        else s2
    | _ => s2
    end in
  let leading_underscore :=
    match s3 with
    | c :: _ => (c =? ord "_")%N
    | [] => false
    end in
  if leading_underscore then Raise ValueError
  else
    match hex_digits s3 false false 0 with
    | Some n => Ok (sign * n)%Z
    | None => Raise ValueError
    end.

Section PyLong.
Variable math : MathLib.

(** The loop of [_PyUnicode_TransformDecimalAndSpaceToASCII]: a character
    below 127 is kept, white space becomes a space, a decimal digit becomes
    the ASCII digit of its value, and any other character becomes a question
    mark, at which the result ends. *)
Fixpoint transform_loop (u : pystr) : list N :=
  match u with
  | [] => []
  | ch :: u' =>
      if (ch <? 127)%N then ch :: transform_loop u'
      else if Py_UNICODE_ISSPACE ch then ord " " :: transform_loop u'
      else
        match unicode_todecimal math ch with
        | Some decimal => (ord "0" + decimal)%N :: transform_loop u'
        | None => [ord "?"]
        end
  end.

(** A [str] of ASCII characters is returned as it is. *)
Definition transform_decimal_and_space_to_ascii (u : pystr) : list N :=
  if forallb (fun ch => (ch <? 128)%N) u then u else transform_loop u.

(** [int(u, 16)] for a [str]: [PyLong_FromUnicodeObject]. *)
Definition int16 (u : pystr) : result Z :=
  PyLong_FromString (transform_decimal_and_space_to_ascii u).
End PyLong.

(** *** numpy statistics *)

Definition np_mean (l : list Q) : Q := py_sum l / Qnat (length l).

Definition np_var (l : list Q) : Q :=
  let m := np_mean l in
  np_mean (map (fun v => Qabs (v - m) * Qabs (v - m)) l).

Definition np_sort (l : list Q) : list Q := merge_sort Qle l.

Definition np_median (l : list Q) : Q :=
  let s := np_sort l in
  let n := length s in
  if Nat.even n
  then (nth (n / 2 - 1) s 0 + nth (n / 2) s 0) / 2
  else nth (n / 2) s 0.

Definition np_max (l : list Q) : Q :=
  match l with
  | [] => 0
  | a :: l' => foldl py_max a l'
  end.

Section NumPy.
Variable math : MathLib.

Definition np_std (l : list Q) : Q := math_sqrt math (np_var l).
End NumPy.

(** ** Data model *)

(** A point [{"x", "y", "t", "pressure"?}]. *)
Record Point : Type := {
  p_x : Q;
  p_y : Q;
  p_t : Q;
  p_pressure : option Q
}.

(** A stroke; [None] is a key that the JSON object does not have.  The keys
    ["width"] and ["closed"] are never read by the code. *)
Record Stroke : Type := {
  s_points : option (list Point);
  s_color : option pystr;
  s_opacity : option Q;
  s_tool : option string;
  s_layer : option Q
}.

Record Drawing : Type := {
  d_strokes : option (list Stroke);
  d_canvas_w : option Q;
  d_canvas_h : option Q
}.

(** [stroke.get("points", [])] *)
Definition stroke_points (stroke : Stroke) : list Point :=
  default [] (s_points stroke).

(** ** feature_extractor.py *)

(** A numpy array of shape [(rows, cols)], row after row. *)
Definition np_zeros (rows cols : nat) : list Q := replicate (rows * cols) 0.

(** [grid[j, i] += 1]: an index in [-n .. -1] counts from the end, any other
    index outside of [0 .. n-1] raises. *)
Definition np_index (n : nat) (i : Z) : result nat :=
  let n' := Z.of_nat n in
  if ((- n' <=? i) && (i <? n'))%Z
  then Ok (Z.to_nat (if (i <? 0)%Z then i + n' else i))
  else Raise IndexError.

Definition grid_incr (rows cols : nat) (grid : list Q) (j i : Z)
  : result (list Q) :=
  j' ← np_index rows j;
  i' ← np_index cols i;
  Ok (alter (Qplus 1) (j' * cols + i')%nat grid).

Definition count_where {A : Type} (f : A -> bool) (l : list A) : nat :=
  length (filter (fun a => f a = true) l).

Definition get_empty_features : gmap string Q :=
  list_to_map [
    ("comp.centroid_x", 0.5);
    ("comp.centroid_y", 0.5);
    ("comp.spatial_entropy", 0);
    ("comp.thirds_occupied", 0);
    ("comp.vertical_symmetry", 1.0);
    ("geom.total_length", 0);
    ("geom.mean_stroke_length", 0);
    ("geom.std_stroke_length", 0);
    ("geom.mean_curvature", 0);
    ("geom.max_curvature", 0);
    ("geom.high_curvature_pct", 0);
    ("geom.mean_velocity", 0);
    ("geom.std_velocity", 0);
    ("geom.mean_pressure", 1.0);
    ("geom.std_pressure", 0);
    ("geom.pen_lift_rate", 0);
    ("color.palette_size", 1);
    ("color.hue_variance", 0);
    ("color.mean_saturation", 0);
    ("color.mean_value", 0);
    ("color.warm_proportion", 0);
    ("color.mean_opacity", 1.0);
    ("color.std_opacity", 0);
    ("layer.mean", 0);
    ("layer.std", 0);
    ("layer.eraser_ratio", 0)
  ]%string.

Definition rgb_to_hsv (r g b : Q) : Q * Q * Q :=
  let max_c := py_max (py_max r g) b in
  let min_c := py_min (py_min r g) b in
  let delta := max_c - min_c in
  let v := max_c in
  let s := if Qeqb max_c 0 then 0 else delta / max_c in
  let h :=
    if Qeqb delta 0 then 0
    else if Qeqb max_c r then py_mod ((g - b) / delta) 6
    else if Qeqb max_c g then (b - r) / delta + 2
    else (r - g) / delta + 4 in
  (h / 6.0, s, v).

(** The loop that fills [all_points]: the coordinates of the points of all
    strokes. *)
Definition collect_points (strokes : list Stroke) : list (Q * Q) :=
  flat_map (fun stroke => map (fun p => (p_x p, p_y p)) (stroke_points stroke))
    strokes.

Section FeatureExtractor.
Variable math : MathLib.

Definition extract_composition_features
    (strokes : list Stroke) (canvas_w canvas_h : Q) : result (gmap string Q) :=
  let all_points := collect_points strokes in
  match all_points with
  | [] => Ok ∅
  | _ :: _ =>
      let n := Qnat (length all_points) in
      let cx := py_sum (map fst all_points) / n in
      let cy := py_sum (map snd all_points) / n in
      centroid_x ← py_truediv cx canvas_w;
      centroid_y ← py_truediv cy canvas_h;
      let grid_size := 10%nat in
      grid ← for_each (fun grid '(x, y) =>
                qx ← py_truediv x canvas_w;
                qy ← py_truediv y canvas_h;
                let i := Z.min (py_int (qx * Qnat grid_size)) (Z.of_nat grid_size - 1) in
                let j := Z.min (py_int (qy * Qnat grid_size)) (Z.of_nat grid_size - 1) in
                grid_incr grid_size grid_size grid j i)
              all_points (np_zeros grid_size grid_size);
      let grid_norm := map (fun c => c / (py_sum grid + 1e-10)) grid in
      let entropy :=
        - py_sum (map (fun p => p * np_log math (p + 1e-10)) grid_norm) in
      let thirds_w := canvas_w / 3 in
      let thirds_h := canvas_h / 3 in
      thirds_grid ← for_each (fun grid '(x, y) =>
                qx ← py_truediv x thirds_w;
                qy ← py_truediv y thirds_h;
                let i := Z.min (py_int qx) 2 in
                let j := Z.min (py_int qy) 2 in
                grid_incr 3 3 grid j i)
              all_points (np_zeros 3 3);
      let thirds_occupied := count_where (fun c => negb (Qeqb c 0)) thirds_grid in
      let left_points := count_where (fun '(x, _) => Qltb x (canvas_w / 2)) all_points in
      let right_points := count_where (fun '(x, _) => Qleb (canvas_w / 2) x) all_points in
      let total := (left_points + right_points)%nat in
      Ok (<["comp.vertical_symmetry" :=
              1.0 - Qabs (Qnat left_points - Qnat right_points) / (Qnat total + 1e-10)]>
          (<["comp.thirds_occupied" := Qnat thirds_occupied]>
          (<["comp.spatial_entropy" := entropy]>
          (<["comp.centroid_y" := centroid_y]>
          (<["comp.centroid_x" := centroid_x]> ∅)))))
  end.

(** The pairs [(points[i-1], points[i])] for [i] in [range(1, len(points))]. *)
Definition segments (points : list Point) : list (Point * Point) :=
  zip points (tail points).

(** The triples [(points[i-1], points[i], points[i+1])] for [i] in
    [range(1, len(points) - 1)]. *)
Definition corners (points : list Point) : list (Point * Point * Point) :=
  zip (zip points (tail points)) (tail (tail points)).

Definition seg_length (seg : Point * Point) : Q :=
  let '(a, b) := seg in
  let dx := p_x b - p_x a in
  let dy := p_y b - p_y a in
  math_sqrt math (dx * dx + dy * dy).

Definition turning_angle (c : Point * Point * Point) : Q :=
  let '(a, b, c) := c in
  let v1x := p_x b - p_x a in
  let v1y := p_y b - p_y a in
  let v2x := p_x c - p_x b in
  let v2y := p_y c - p_y b in
  let len1 := math_sqrt math (v1x * v1x + v1y * v1y) + 1e-10 in
  let len2 := math_sqrt math (v2x * v2x + v2y * v2y) + 1e-10 in
  let dot := (v1x * v2x + v1y * v2y) / (len1 * len2) in
  let dot := py_max (-1) (py_min 1 dot) in
  math_acos math dot.

(** The velocities of one stroke: segments whose [dt] is not positive are
    skipped. *)
Definition stroke_velocities (points : list Point) : list Q :=
  omap (fun seg : Point * Point =>
          let '(a, b) := seg in
          let dt := (p_t b - p_t a) / 1000.0 in
          if Qltb 0 dt then Some (seg_length seg / dt) else None)
       (segments points).

(** The local variables of [extract_geometry_features] that the loop over
    the strokes updates. *)
Record GeomAcc : Type := {
  total_length : Q;
  stroke_lengths : list Q;
  curvatures : list Q;
  velocities : list Q;
  pressures : list Q;
  total_time : Q
}.

(** One iteration of [for stroke in strokes]. *)
Definition geometry_step (acc : GeomAcc) (stroke : Stroke) : GeomAcc :=
  let points := stroke_points stroke in
  if (length points <? 2)%nat then acc
  else
    let length_ := py_sum (map seg_length (segments points)) in
    {| total_length := total_length acc + length_;
       stroke_lengths := stroke_lengths acc ++ [length_];
       curvatures := curvatures acc ++ map turning_angle (corners points);
       velocities := velocities acc ++ stroke_velocities points;
       pressures := pressures acc ++ omap p_pressure points;
       total_time :=
         if (0 <? length points)%nat
         then py_max (total_time acc) (p_t (py_last (Build_Point 0 0 0 None) points))
         else total_time acc |}.

Definition geometry_loop (strokes : list Stroke) : GeomAcc :=
  foldl geometry_step
    {| total_length := 0; stroke_lengths := []; curvatures := [];
       velocities := []; pressures := []; total_time := 0 |}
    strokes.

Definition extract_geometry_features (strokes : list Stroke) : gmap string Q :=
  let pen_lifts := length strokes in
  let acc := geometry_loop strokes in
  let features : gmap string Q := <["geom.total_length" := total_length acc]> ∅ in
  let features :=
    match stroke_lengths acc with
    | _ :: _ =>
        <["geom.std_stroke_length" := np_std math (stroke_lengths acc)]>
        (<["geom.mean_stroke_length" := np_mean (stroke_lengths acc)]> features)
    | [] =>
        <["geom.std_stroke_length" := 0]>
        (<["geom.mean_stroke_length" := 0]> features)
    end in
  let features :=
    match curvatures acc with
    | _ :: _ =>
        <["geom.high_curvature_pct" :=
            Qnat (count_where (fun c => Qltb 1.0 c) (curvatures acc))
            / Qnat (length (curvatures acc))]>
        (<["geom.max_curvature" := np_max (curvatures acc)]>
        (<["geom.mean_curvature" := np_mean (curvatures acc)]> features))
    | [] =>
        <["geom.high_curvature_pct" := 0]>
        (<["geom.max_curvature" := 0]>
        (<["geom.mean_curvature" := 0]> features))
    end in
  let features :=
    match velocities acc with
    | _ :: _ =>
        <["geom.std_velocity" := np_std math (velocities acc)]>
        (<["geom.mean_velocity" := np_mean (velocities acc)]> features)
    | [] =>
        <["geom.std_velocity" := 0]>
        (<["geom.mean_velocity" := 0]> features)
    end in
  let features :=
    match pressures acc with
    | _ :: _ =>
        <["geom.std_pressure" := np_std math (pressures acc)]>
        (<["geom.mean_pressure" := np_mean (pressures acc)]> features)
    | [] =>
        <["geom.std_pressure" := 0]>
        (<["geom.mean_pressure" := 1.0]> features)
    end in
  if Qltb 0 (total_time acc)
  then <["geom.pen_lift_rate" := Qnat pen_lifts / (total_time acc / 1000.0)]> features
  else <["geom.pen_lift_rate" := 0]> features.
(** [int(color[a:b], 16) / 255.0] *)
Definition parse_channel (color : pystr) (a b : nat) : result Q :=
  n ← int16 math (py_substr a b color);
  Ok (inject_Z n / 255.0).

(** One iteration of [for stroke in strokes] of [extract_color_features]:
    the state is the pair of the lists [colors] and [opacities]. *)
Definition color_step (acc : list (Q * Q * Q) * list Q) (stroke : Stroke)
  : result (list (Q * Q * Q) * list Q) :=
  let '(colors, opacities) := acc in
  let color := default (str "#000000") (s_color stroke) in
  let opacity := default 1.0 (s_opacity stroke) in
  colors ←
    (if startswith color (str "#") then
       r ← parse_channel color 1 3;
       g ← parse_channel color 3 5;
       b ← parse_channel color 5 7;
       Ok (colors ++ [rgb_to_hsv r g b])
     else Ok colors);
  Ok (colors, opacities ++ [opacity]).

Definition palette_size (hues : list Q) : nat :=
  let quantized_hues := map (fun h => py_round (h * 12)) hues in
  size (list_to_set quantized_hues : gset Z).

Definition is_warm (h : Q) : bool :=
  (Qleb 0 h && Qltb h 0.17) || Qltb 0.83 h.

Definition extract_color_features (strokes : list Stroke)
  : result (gmap string Q) :=
  '(colors, opacities) ← for_each color_step strokes ([], []);
  let features : gmap string Q :=
    match colors with
    | _ :: _ =>
        let hues := map (fun c => c.1.1) colors in
        let sats := map (fun c => c.1.2) colors in
        let vals := map (fun c => c.2) colors in
        <["color.warm_proportion" :=
            Qnat (count_where is_warm hues) / Qnat (length hues)]>
        (<["color.mean_value" := np_mean vals]>
        (<["color.mean_saturation" := np_mean sats]>
        (<["color.hue_variance" := np_var hues]>
        (<["color.palette_size" := Qnat (palette_size hues)]> ∅))))
    | [] =>
        <["color.warm_proportion" := 0]>
        (<["color.mean_value" := 0]>
        (<["color.mean_saturation" := 0]>
        (<["color.hue_variance" := 0]>
        (<["color.palette_size" := 1]> ∅))))
    end in
  match opacities with
  | _ :: _ =>
      Ok (<["color.std_opacity" := np_std math opacities]>
          (<["color.mean_opacity" := np_mean opacities]> features))
  | [] =>
      Ok (<["color.std_opacity" := 0]>
          (<["color.mean_opacity" := 1.0]> features))
  end.

Definition extract_layering_features (strokes : list Stroke) : gmap string Q :=
  let layers := map (fun stroke => default 0 (s_layer stroke)) strokes in
  let features : gmap string Q :=
    match layers with
    | _ :: _ =>
        <["layer.std" := np_std math layers]>
        (<["layer.mean" := np_mean layers]> ∅)
    | [] => <["layer.std" := 0]> (<["layer.mean" := 0]> ∅)
    end in
  let eraser_count :=
    count_where (fun stroke => bool_decide (s_tool stroke = Some "eraser"%string))
      strokes in
  <["layer.eraser_ratio" :=
      match strokes with
      | _ :: _ => Qnat eraser_count / Qnat (length strokes)
      | [] => 0
      end]> features.

(** [features.update(new)]: the entries of [new] replace those of
    [features] that have the same key. *)
Definition dict_update {V : Type} (features new : gmap string V) : gmap string V :=
  new ∪ features.

Definition extract_features (drawing_data : Drawing) : result (gmap string Q) :=
  let features : gmap string Q := ∅ in
  let strokes := default [] (d_strokes drawing_data) in
  let canvas_w := default 800 (d_canvas_w drawing_data) in
  let canvas_h := default 600 (d_canvas_h drawing_data) in
  match strokes with
  | [] => Ok get_empty_features
  | _ :: _ =>
      comp ← extract_composition_features strokes canvas_w canvas_h;
      let features := dict_update features comp in
      let features := dict_update features (extract_geometry_features strokes) in
      color ← extract_color_features strokes;
      let features := dict_update features color in
      let features := dict_update features (extract_layering_features strokes) in
      Ok features
  end.
End FeatureExtractor.

Definition compute_qc_flags (features : gmap string Q) (strokes : list Stroke)
  : gmap string bool :=
  let has_pressure :=
    existsb (fun stroke =>
               existsb (fun p => bool_decide (is_Some (p_pressure p)))
                 (stroke_points stroke))
      strokes in
  <["too_few_strokes"%string := (length strokes <? 3)%nat]>
  (<["missing_pressure"%string := negb has_pressure]>
  (<["too_short"%string :=
       Qltb (default 0 (features !! "geom.total_length"%string)) 10]> ∅)).

(** The sample drawing of the module's [__main__] block. *)
Definition sample_data : Drawing :=
  {| d_canvas_w := Some 800;
     d_canvas_h := Some 600;
     d_strokes := Some [
       {| s_tool := Some "pen"%string;
          s_color := Some (str "#FF0000");
          s_opacity := Some 1.0;
          s_layer := Some 0;
          s_points := Some [
            {| p_x := 100; p_y := 100; p_t := 0; p_pressure := Some 0.8 |};
            {| p_x := 150; p_y := 150; p_t := 100; p_pressure := Some 0.9 |};
            {| p_x := 200; p_y := 100; p_t := 200; p_pressure := Some 0.7 |} ] |} ] |}.

(** ** baseline_analyzer.py *)

Record BaselineEntry : Type := {
  median : Q;
  mad : Q
}.

(** The loop that fills [feature_values]: the values of each key, in the
    order of the history entries that have the key. *)
Definition collect_values (recent : list (gmap string Q)) : gmap string (list Q) :=
  foldl (fun feature_values features =>
           merge (fun old new =>
                    match old, new with
                    | Some values, Some value => Some (values ++ [value])
                    | None, Some value => Some [value]
                    | _, None => old
                    end)
                 feature_values features)
        ∅ recent.

Section BaselineAnalyzer.
Variable math : MathLib.

(** The body of [for key, values in feature_values.items()]. *)
Definition robust_entry (values : list Q) : BaselineEntry :=
  if (length values <? 3)%nat
  then {| median := np_median values; mad := 0.0 |}
  else
    let median := np_median values in
    let mad := np_median (map (fun v => Qabs (v - median)) values) in
    let mad :=
      if Qltb mad 1e-6 then
        let mad := np_std math values / 1.253 in
        if Qltb mad 1e-6 then 0.1 else mad
      else mad in
    {| median := median; mad := mad |}.

Definition compute_robust_baseline
    (feature_history : list (gmap string Q)) (window : Z)
  : gmap string BaselineEntry :=
  match feature_history with
  | [] => ∅
  | _ :: _ =>
      let recent := py_slice_to window feature_history in
      let feature_values := collect_values recent in
      robust_entry <$> feature_values
  end.
End BaselineAnalyzer.

Definition compute_z_scores
    (features : gmap string Q) (baseline : gmap string BaselineEntry)
  : gmap string Q :=
  map_imap (fun key value =>
              Some (match baseline !! key with
                    | None => 0.0
                    | Some entry =>
                        if Qltb 0 (mad entry)
                        then (value - median entry) / mad entry
                        else 0.0
                    end))
           features.

(** Modelled from the spec: [scipy.stats.trim_mean] is imported by
    [baseline_analyzer.py] and is not under [src/].  The spec has it sort
    the values, discard the lowest and the highest [trim] fraction from each
    end, and average the remainder; as in scipy the number of values cut at
    each end is [int(proportiontocut * len(a))], a cut that is negative or
    that exceeds what the other end leaves is a [ValueError], and the mean
    of no value at all is NaN. *)
Definition trim_mean (a : list Q) (proportiontocut : Q) : result npfloat :=
  match a with
  | [] => Ok NaN
  | _ :: _ =>
      let nobs := Z.of_nat (length a) in
      let lowercut := py_int (proportiontocut * inject_Z nobs) in
      let uppercut := (nobs - lowercut)%Z in
      if ((uppercut <? lowercut) || (lowercut <? 0))%Z then Raise ValueError
      else
        let atmp := np_sort a in
        let sl := drop (Z.to_nat lowercut) (take (Z.to_nat uppercut) atmp) in
        match sl with
        | [] => Ok NaN
        | _ :: _ => Ok (Finite (np_mean sl))
        end
  end.

(** [zmap.values()] *)
Definition dict_values {V : Type} (d : gmap string V) : list V :=
  (map_to_list d).*2.

Definition compute_anomaly_score (zmap : gmap string Q) (trim : Q)
  : result npfloat :=
  if bool_decide (zmap = ∅) then Ok (Finite 0.0)
  else
    let abs_z := map Qabs (dict_values zmap) in
    match abs_z with
    | [] => Ok (Finite 0.0)
    | _ :: _ => trim_mean abs_z trim
    end.

Definition descriptions : gmap string string :=
  list_to_map [
    ("geom.mean_curvature", "curvature");
    ("geom.total_length", "total ink length");
    ("geom.pen_lift_rate", "pen lifts");
    ("color.hue_variance", "color diversity");
    ("color.palette_size", "number of colors");
    ("comp.spatial_entropy", "spatial distribution");
    ("geom.mean_velocity", "drawing speed");
    ("geom.std_velocity", "speed variation");
    ("comp.vertical_symmetry", "symmetry");
    ("layer.eraser_ratio", "eraser usage")
  ]%string.

(** [sep.join(parts)] *)
Fixpoint join (sep : string) (parts : list string) : string :=
  match parts with
  | [] => ""
  | [p] => p
  | p :: rest => p ++ sep ++ join sep rest
  end%string.

(** The body of the loop over [top_features[:3]]: one phrase. *)
Definition phrase (item : string * Q) : string :=
  let '(feature, z) := item in
  let desc := default feature (descriptions !! feature) in
  let direction := if Qltb 0 z then "higher" else "lower" in
  (direction ++ " " ++ desc)%string.

Definition generate_interpretation_text (top_features : list (string * Q)) : string :=
  match top_features with
  | [] => "No significant deviations detected."
  | _ :: _ =>
      let parts := map phrase (take 3 top_features) in
      ("Top signals: " ++ join ", " parts)%string
  end.

(** [sorted(items, key=lambda x: abs(x[1]), reverse=True)]: the sort of
    Python is stable, also with [reverse=True], so that items of equal
    [|z|] keep their order.  [insert_desc] puts an item in front of the
    first item whose [|z|] is not larger. *)
Fixpoint insert_desc (x : string * Q) (l : list (string * Q)) : list (string * Q) :=
  match l with
  | [] => [x]
  | y :: l' =>
      if Qleb (Qabs y.2) (Qabs x.2) then x :: y :: l'
      else y :: insert_desc x l'
  end.

Definition sorted_desc (items : list (string * Q)) : list (string * Q) :=
  foldr insert_desc [] items.

(** The argument is [zmap.items()], the items of the dict in the order of
    their insertion. *)
Definition identify_top_contributing_features
    (zmap_items : list (string * Q)) (top_n : Z) : list (string * Q) :=
  let sorted_features := sorted_desc zmap_items in
  py_slice_to top_n sorted_features.

Definition detect_change_points_simple
    (anomaly_scores : list Q) (threshold : Q) : list nat :=
  if (length anomaly_scores <? 5)%nat then []
  else
    let scores := anomaly_scores in
    let median := np_median scores in
    let mad := np_median (map (fun s => Qabs (s - median)) scores) in
    if Qltb mad 1e-6 then []
    else
      filter (fun i => Qltb (threshold * mad) (Qabs (nth i scores 0 - median)) = true)
        (seq 0 (length scores)).

Definition compute_ema (values : list Q) (alpha : Q) : list Q :=
  match values with
  | [] => []
  | v0 :: rest =>
      foldl (fun ema v => ema ++ [alpha * v + (1 - alpha) * py_last 0 ema])
        [v0] rest
  end.

(** ** An implementation of [MathLib]

    Fixed-precision approximations of the three functions and the decimal
    digits of one version of Unicode, used to run the model on concrete
    inputs. *)

(** The square root rounded down to ten decimal places. *)
Definition approx_sqrt (q : Q) : Q :=
  if Qleb q 0 then 0
  else inject_Z (Z.sqrt (Qfloor (q * inject_Z (10 ^ 20)))) / inject_Z (10 ^ 10).

(** [sum (y^(2k+1) / (2k+1))] for [k] from [k0], [n] terms; [p] is [y^(2k0+1)]. *)
Fixpoint atanh_series (n : nat) (k0 : Z) (p y2 : Q) : Q :=
  match n with
  | O => 0
  | S n' => p / inject_Z (2 * k0 + 1) + atanh_series n' (k0 + 1) (p * y2) y2
  end.

(** The logarithm: [q = m * 2^e] with [m] between 1/2 and 2, and
    [ln m = 2 atanh ((m - 1) / (m + 1))]. *)
Definition approx_log (q : Q) : Q :=
  if Qleb q 0 then 0
  else
    let e := (Z.log2 (Qnum q) - Z.log2 (Zpos (Qden q)))%Z in
    let m := q / Qpower 2 e in
    let y := inject_Z (Qfloor ((m - 1) / (m + 1) * inject_Z (10 ^ 12)))
             / inject_Z (10 ^ 12) in
    Qred (2 * atanh_series 8 0 y (y * y) + inject_Z e * 0.6931471805599453).

(** The arc cosine by the polynomial of Abramowitz and Stegun, 4.4.45. *)
Definition approx_acos (x : Q) : Q :=
  let a := Qabs x in
  let r := approx_sqrt (1 - a)
           * (1.5707288 + a * (-0.2121144 + a * (0.0742610 - 0.0187293 * a))) in
  if Qltb x 0 then 3.14159265358979 - r else r.

(** The decimal digits of Unicode 14.0: the code point of the digit zero of
    each script; the digits one to nine follow it. *)
Definition decimal_zeros : list N := [
  0x0030; 0x0660; 0x06F0; 0x07C0; 0x0966; 0x09E6; 0x0A66; 0x0AE6; 0x0B66;
  0x0BE6; 0x0C66; 0x0CE6; 0x0D66; 0x0DE6; 0x0E50; 0x0ED0; 0x0F20; 0x1040;
  0x1090; 0x17E0; 0x1810; 0x1946; 0x19D0; 0x1A80; 0x1A90; 0x1B50; 0x1BB0;
  0x1C40; 0x1C50; 0xA620; 0xA8D0; 0xA900; 0xA9D0; 0xA9F0; 0xAA50; 0xABF0;
  0xFF10; 0x104A0; 0x10D30; 0x11066; 0x110F0; 0x11136; 0x111D0; 0x112F0;
  0x11450; 0x114D0; 0x11650; 0x116C0; 0x11730; 0x118E0; 0x11950; 0x11C50;
  0x11D50; 0x11DA0; 0x16A60; 0x16AC0; 0x16B50; 0x1D7CE; 0x1D7D8; 0x1D7E2;
  0x1D7EC; 0x1D7F6; 0x1E140; 0x1E2F0; 0x1E950; 0x1FBF0 ]%N.

Definition unicode_decimal (ch : N) : option N :=
  head (omap (fun zero =>
                if ((zero <=? ch) && (ch <? zero + 10))%N then Some (ch - zero)%N
                else None)
             decimal_zeros).

Definition rational_math : MathLib :=
  {| math_sqrt := approx_sqrt; math_acos := approx_acos; np_log := approx_log;
     unicode_todecimal := unicode_decimal |}.

(** ** The vocabulary and the documented defaults *)

(** The 26 feature names, by namespace. *)
Definition vocabulary : list string := [
  "comp.centroid_x"; "comp.centroid_y"; "comp.spatial_entropy";
  "comp.thirds_occupied"; "comp.vertical_symmetry";
  "geom.total_length"; "geom.mean_stroke_length"; "geom.std_stroke_length";
  "geom.mean_curvature"; "geom.max_curvature"; "geom.high_curvature_pct";
  "geom.mean_velocity"; "geom.std_velocity"; "geom.mean_pressure";
  "geom.std_pressure"; "geom.pen_lift_rate";
  "color.palette_size"; "color.hue_variance"; "color.mean_saturation";
  "color.mean_value"; "color.warm_proportion"; "color.mean_opacity";
  "color.std_opacity";
  "layer.mean"; "layer.std"; "layer.eraser_ratio" ]%string.

(** The names of one namespace. *)
Definition namespace (prefix : string) : list string :=
  filter (fun k => String.prefix prefix k = true) vocabulary.

Definition comp_keys : list string := namespace "comp.".
Definition geom_keys : list string := namespace "geom.".
Definition color_keys : list string := namespace "color.".
Definition layer_keys : list string := namespace "layer.".

(** The documented default of a feature: 0.5 for the two centroid
    coordinates, 1.0 for the vertical symmetry, the mean pressure and the
    mean opacity, 1 for the palette size, and 0 for every other feature. *)
Definition documented_default (key : string) : Q :=
  if bool_decide (key ∈ ["comp.centroid_x"; "comp.centroid_y"]%string) then 0.5
  else if bool_decide (key ∈ ["comp.vertical_symmetry"; "geom.mean_pressure";
                               "color.mean_opacity"]%string) then 1.0
  else if bool_decide (key = "color.palette_size"%string) then 1
  else 0.

Definition documented_default_vector : gmap string Q :=
  list_to_map (map (fun key => (key, documented_default key)) vocabulary).

(** ** What the specification says of the duration, the pressures and the
    colors *)

(** The maximum timestamp across all points of all strokes; 0 for a drawing
    without points. *)
Definition session_duration (strokes : list Stroke) : Q :=
  foldl py_max 0 (flat_map (fun stroke => map p_t (stroke_points stroke)) strokes).

(** The stroke count divided by the duration in seconds, 0 when the
    duration is 0. *)
Definition documented_pen_lift_rate (strokes : list Stroke) : Q :=
  let duration := session_duration strokes in
  if Qeqb duration 0 then 0
  else Qnat (length strokes) / (duration / 1000).

(** The pressure values of all points, in any stroke, that carry one. *)
Definition documented_pressures (strokes : list Stroke) : list Q :=
  flat_map (fun stroke => omap p_pressure (stroke_points stroke)) strokes.

Definition documented_mean_pressure (strokes : list Stroke) : Q :=
  match documented_pressures strokes with
  | [] => 1.0
  | _ :: _ => np_mean (documented_pressures strokes)
  end.



(** A well-formed ["#RRGGBB"]: a hash sign and six hexadecimal digits. *)
Definition well_formed_color (color : pystr) : bool :=
  match color with
  | c :: digits =>
      (c =? ord "#")%N
      && (length digits =? 6)%nat
      && forallb (fun c => bool_decide (is_Some (hex_digit c))) digits
  | [] => false
  end.

(** [stroke.get("color", "#000000")] *)
Definition stroke_color (stroke : Stroke) : pystr :=
  default (str "#000000") (s_color stroke).

(** ** Concrete drawings and histories *)

Definition mk_stroke (color : string) (points : list Point) : Stroke :=
  {| s_points := Some points; s_color := Some (str color); s_opacity := Some 1.0;
     s_tool := Some "pen"%string; s_layer := Some 0 |}.

Definition mk_drawing (strokes : list Stroke) : Drawing :=
  {| d_strokes := Some strokes; d_canvas_w := Some 800; d_canvas_h := Some 600 |}.

(** One stroke, the pen lifted before any point was recorded. *)
Definition blank_stroke_drawing : Drawing :=
  mk_drawing [mk_stroke "#000000" []].

(** One stroke that is a single dot, five seconds into the session, with a
    pressure of one half. *)
Definition dot_stroke : Stroke :=
  mk_stroke "#000000"
    [{| p_x := 400; p_y := 300; p_t := 5000; p_pressure := Some 0.5 |}].

Definition dot_drawing : Drawing := mk_drawing [dot_stroke].

(** A horizontal line of two points, drawn in a tenth of a second. *)
Definition short_line : list Point :=
  [{| p_x := 100; p_y := 100; p_t := 0; p_pressure := None |};
   {| p_x := 150; p_y := 100; p_t := 100; p_pressure := None |}].

(** One stroke whose color is a CSS color name. *)
Definition named_color_drawing : Drawing :=
  mk_drawing [mk_stroke "red" short_line].

(** One stroke whose color has a letter that is no hexadecimal digit. *)
Definition bad_hex_drawing : Drawing :=
  mk_drawing [mk_stroke "#GG0000" short_line].

(** Thirteen strokes: the twelve hues at multiples of 30 degrees, and a red
    with a trace of blue, whose hue is just below 1. *)
Definition thirteen_color_names : list string := [
  "#FF0000"; "#FF8000"; "#FFFF00"; "#80FF00"; "#00FF00"; "#00FF80"; "#00FFFF";
  "#0080FF"; "#0000FF"; "#8000FF"; "#FF00FF"; "#FF0080"; "#FF0001" ]%string.

Definition thirteen_colors : list pystr := map str thirteen_color_names.

Definition thirteen_color_drawing : Drawing :=
  mk_drawing (map (fun color => mk_stroke color short_line) thirteen_color_names).

(** A history of one session, and one of five. *)
Definition single_session_history : list (gmap string Q) :=
  [ {[ "x"%string := 1 ]} ].

Definition five_session_history : list (gmap string Q) :=
  [ {[ "x"%string := 1 ]}; {[ "x"%string := 2 ]}; {[ "x"%string := 3 ]};
    {[ "x"%string := 4 ]}; {[ "x"%string := 5 ]} ].

Definition unit_mad_baseline : gmap string BaselineEntry :=
  {[ "x"%string := {| median := 3; mad := 1 |} ]}.

Definition five_z_scores : gmap string Q :=
  list_to_map [("a", 1); ("b", 2); ("c", 3); ("d", 4); ("e", 5)]%string.

(** ** Reading the outcome of a call *)

#[global] Instance Q_eq_dec : EqDecision Q.
Proof. solve_decision. Defined.

#[global] Instance BaselineEntry_eq_dec : EqDecision BaselineEntry.
Proof. solve_decision. Defined.

#[global] Instance PyError_eq_dec : EqDecision PyError.
Proof. solve_decision. Defined.

#[global] Instance npfloat_eq_dec : EqDecision npfloat.
Proof. solve_decision. Defined.

#[global] Instance result_eq_dec {A : Type} `{EqDecision A} : EqDecision (result A).
Proof. solve_decision. Defined.

(** The value of a feature in the returned vector; [None] when the call
    raised or when the vector lacks the key. *)
Definition feature_of (r : result (gmap string Q)) (key : string) : option Q :=
  match r with
  | Ok fv => fv !! key
  | Raise _ => None
  end.

(** The key set of the returned vector. *)
Definition keys_of (r : result (gmap string Q)) : option (gset string) :=
  match r with
  | Ok fv => Some (dom fv)
  | Raise _ => None
  end.

Definition is_ok {A : Type} (r : result A) : bool :=
  match r with
  | Ok _ => true
  | Raise _ => false
  end.

(** The values of [key] in the entries of the window that have the key. *)
Definition observed_values (key : string) (recent : list (gmap string Q)) : list Q :=
  omap (fun features : gmap string Q => features !! key) recent.

(** The number of values that a proportion [trim] of [n] values amounts to,
    rounded down. *)
Definition trim_count (trim : Q) (n : nat) : nat :=
  Z.to_nat (Qfloor (trim * Qnat n)).

(** ** Conditions on the input of the analyzer *)

(** A baseline: the scale of every entry is a median of absolute
    deviations, one of the fallbacks, or the 0.0 of a short history, and
    is not negative. *)
Definition is_baseline (baseline : gmap string BaselineEntry) : Prop :=
  map_Forall (fun _ entry => 0 <= mad entry) baseline.

(** ** Conditions on the input of the extractors *)

(** The color of the stroke is skipped by [extract_color_features] or its
    three slices are accepted by [int(_, 16)]. *)
Definition color_parses (math : MathLib) (stroke : Stroke) : bool :=
  let color := stroke_color stroke in
  if startswith color (str "#")
  then is_ok (parse_channel math color 1 3) && is_ok (parse_channel math color 3 5)
       && is_ok (parse_channel math color 5 7)
  else true.




(** ** Notions used by the properties of the remaining code *)

(** The values that [compute_ema] appends after the value [prev]. *)
Fixpoint ema_from (alpha prev : Q) (rest : list Q) : list Q :=
  match rest with
  | [] => []
  | v :: rest' =>
      let e := alpha * v + (1 - alpha) * prev in
      e :: ema_from alpha e rest'
  end.

(** [ge_abs a b]: the item [a] has an absolute z-score at least that of [b]. *)
Definition ge_abs (a b : string * Q) : Prop := Qabs b.2 <= Qabs a.2.

(** The deviations of the scores from their median; the scale of
    [detect_change_points_simple] is their median. *)
Definition deviations (scores : list Q) : list Q :=
  map (fun s => Qabs (s - np_median scores)) scores.

(** The outcome of [int(_, 16)] on a string of two characters is a number
    from 0 to 255. *)
Definition two_hex_ok (math : MathLib) (c1 c2 : N) : bool :=
  match int16 math [c1; c2] with
  | Ok n => (0 <=? n)%Z && (n <=? 255)%Z
  | Raise _ => false
  end.

(** A grid of counts: it has [size] cells and every cell is at least 0;
    [occupied] says that some cell is positive. *)
Definition counts (size : nat) (grid : list Q) : Prop :=
  length grid = size /\ forall k c, grid !! k = Some c -> 0 <= c.

Definition occupied (grid : list Q) : Prop :=
  exists k c, grid !! k = Some c /\ 0 < c.

(** The vector of a call, or the empty vector when the call raised. *)
Definition vector_of (r : result (gmap string Q)) : gmap string Q :=
  match r with
  | Ok fv => fv
  | Raise _ => ∅
  end.

(** More concrete inputs: a stroke far to the left of the canvas, and two
    strokes on two layers, one of them erased. *)
Definition far_left_stroke : Stroke :=
  mk_stroke "#000000"
    [{| p_x := -1000; p_y := 100; p_t := 0; p_pressure := None |};
     {| p_x := -900; p_y := 100; p_t := 100; p_pressure := None |}].

Definition two_layer_strokes : list Stroke :=
  [ mk_stroke "#FF0000" short_line;
    {| s_points := Some short_line; s_color := Some (str "#00FF00");
       s_opacity := Some 0.5; s_tool := Some "eraser"%string;
       s_layer := Some 2 |} ].

(** * Properties *)

Lemma bind_raise {A B : Type} (k : A -> result B) (e : PyError) :
  (Raise e ≫= k) = Raise e.
Proof. reflexivity. Qed.

Lemma bind_ok {A B : Type} (k : A -> result B) (a : A) :
  (Ok a ≫= k) = k a.
Proof. reflexivity. Qed.

Lemma feature_of_Some (r : result (gmap string Q)) (key : string) (v : Q) :
  feature_of r key = Some v -> exists fv, r = Ok fv /\ fv !! key = Some v.
Proof.
  destruct r as [fv | e]; simpl; intros H.
  - exists fv. split; [reflexivity | exact H].
  - discriminate H.
Qed.

Lemma keys_of_Some (r : result (gmap string Q)) (K : gset string) :
  keys_of r = Some K -> exists fv, r = Ok fv /\ dom fv = K.
Proof.
  destruct r as [fv | e]; simpl; intros H.
  - exists fv. split; [reflexivity | congruence].
  - discriminate H.
Qed.

Lemma is_ok_true {A : Type} (r : result A) :
  is_ok r = true -> exists a, r = Ok a.
Proof.
  destruct r as [a | e]; simpl; intros H.
  - exists a. reflexivity.
  - discriminate H.
Qed.

(** ** The Python primitives on known values *)

(** [int(s, 16)] on ASCII strings: the outcome does not depend on the
    Unicode database. *)
Example int16_accepts (math : MathLib) :
  int16 math (str "FF") = Ok 255%Z /\ int16 math (str "0a") = Ok 10%Z
  /\ int16 math (str " f") = Ok 15%Z /\ int16 math (str "-F") = Ok (-15)%Z
  /\ int16 math (str "F") = Ok 15%Z /\ int16 math (str "0x_f") = Ok 15%Z
  /\ int16 math (str "f_f") = Ok 255%Z
  /\ int16 math (str "1_") = Raise ValueError
  /\ int16 math (str "_1") = Raise ValueError
  /\ int16 math (str "- f") = Raise ValueError
  /\ int16 math (str "0x") = Raise ValueError
  /\ int16 math (str "GG") = Raise ValueError
  /\ int16 math (str "") = Raise ValueError.
Proof. repeat split; reflexivity. Qed.

(** The characters U+001C to U+001F are white space for [str.strip], not
    for [int]; U+0085, U+00A0 and U+2002 are white space for [int] too; a
    NUL and a superscript two are rejected. *)
Example int16_white_space (math : MathLib) :
  int16 math [0x1C; ord "F"]%N = Raise ValueError
  /\ int16 math [0xA0; ord "F"]%N = Ok 15%Z
  /\ int16 math [ord "F"; 0x85]%N = Ok 15%Z
  /\ int16 math [0x2002; ord "F"]%N = Ok 15%Z
  /\ int16 math [ord "F"; 0]%N = Raise ValueError
  /\ int16 rational_math [0xB2]%N = Raise ValueError.
Proof. repeat split; reflexivity. Qed.

(** Decimal digits of other scripts are digits for [int]: the Arabic-Indic
    one and two, and a fullwidth seven after an ASCII one. *)
Example int16_unicode_digits :
  int16 rational_math [0x661; 0x662]%N = Ok 18%Z
  /\ int16 rational_math [ord "1"; 0xFF17]%N = Ok 23%Z.
Proof. repeat split; reflexivity. Qed.

Example py_round_ties :
  py_round 0.5 = 0%Z /\ py_round 1.5 = 2%Z /\ py_round 2.5 = 2%Z
  /\ py_round 11.4 = 11%Z /\ py_round 11.6 = 12%Z.
Proof. repeat split; reflexivity. Qed.

Example py_int_truncates :
  py_int 1.5 = 1%Z /\ py_int (-1.5) = (-1)%Z /\ py_int (-0.5) = 0%Z.
Proof. repeat split; reflexivity. Qed.

(** The fixtures of the hue conversion: red, green, blue and black. *)
Example rgb_to_hsv_fixtures :
  Forall2 (fun rgb hsv =>
             let '(r, g, b) := rgb in
             let '(h, s, v) := hsv in
             (rgb_to_hsv r g b).1.1 == h /\ (rgb_to_hsv r g b).1.2 == s
             /\ (rgb_to_hsv r g b).2 == v)
    [(1, 0, 0); (0, 1, 0); (0, 0, 1); (0, 0, 0)]
    [(0, 1, 1); (1 # 3, 1, 1); (2 # 3, 1, 1); (0, 0, 0)].
Proof. repeat constructor; compute_done. Qed.

(** The history 1, 2, 3, 4, 5 has the median 3 and the scale 1. *)
Example compute_robust_baseline_five_sessions (math : MathLib) :
  compute_robust_baseline math five_session_history 30 !! "x"%string
  = Some {| median := 3; mad := 1 |}.
Proof. compute_done. Qed.

(** ** The default vector *)

Lemma get_empty_features_documented :
  get_empty_features = documented_default_vector.
Proof. compute_done. Qed.

Lemma documented_default_vector_lookup (key : string) :
  key ∈ vocabulary ->
  documented_default_vector !! key = Some (documented_default key).
Proof.
  revert key. apply Forall_forall. compute_done.
Qed.

(** C3: on a drawing whose strokes list is absent or empty,
    [extract_features] returns the documented default vector: its keys are
    the 26 names of the vocabulary, the two centroid coordinates are 0.5,
    the vertical symmetry, the mean pressure and the mean opacity are 1.0,
    the palette size is 1 and every other feature is 0. *)
Theorem extract_features_no_strokes
    (math : MathLib) (canvas_w canvas_h : option Q) :
  extract_features math
    {| d_strokes := None; d_canvas_w := canvas_w; d_canvas_h := canvas_h |}
    = Ok documented_default_vector
  /\ extract_features math
    {| d_strokes := Some []; d_canvas_w := canvas_w; d_canvas_h := canvas_h |}
    = Ok documented_default_vector
  /\ dom documented_default_vector = list_to_set vocabulary
  /\ length vocabulary = 26%nat
  /\ Forall (fun key => documented_default_vector !! key
                        = Some (documented_default key)) vocabulary.
Proof.
  rewrite <- get_empty_features_documented.
  split; [reflexivity | split; [reflexivity |]].
  rewrite get_empty_features_documented.
  split; [compute_done | split; [reflexivity | compute_done]].
Qed.

(** ** Drawings whose strokes have too few points *)

(** The keys that each of the four extractors writes. *)
Ltac step_bind H :=
  match type of H with
  | (?r ≫= _) = Ok _ =>
      destruct r eqn:?; [rewrite bind_ok in H | rewrite bind_raise in H; discriminate H]
  end.

Ltac dom_inserts := rewrite ?dom_insert_L, ?dom_empty_L; compute_done.

Lemma extract_composition_features_keys
    (math : MathLib) (strokes : list Stroke) (canvas_w canvas_h : Q)
    (comp : gmap string Q) :
  extract_composition_features math strokes canvas_w canvas_h = Ok comp ->
  dom comp = if decide (collect_points strokes = []) then ∅
             else list_to_set comp_keys.
Proof.
  unfold extract_composition_features. intros H.
  destruct (collect_points strokes) as [| xy all_points].
  - injection H as <-. rewrite decide_True by reflexivity. apply dom_empty_L.
  - rewrite decide_False by discriminate.
    do 4 step_bind H. injection H as <-. dom_inserts.
Qed.

Lemma extract_geometry_features_keys (math : MathLib) (strokes : list Stroke) :
  dom (extract_geometry_features math strokes) = list_to_set geom_keys.
Proof.
  unfold extract_geometry_features.
  destruct (stroke_lengths _), (curvatures _), (velocities _), (pressures _),
    (Qltb _ _); dom_inserts.
Qed.

Lemma extract_color_features_keys
    (math : MathLib) (strokes : list Stroke) (color : gmap string Q) :
  extract_color_features math strokes = Ok color ->
  dom color = list_to_set color_keys.
Proof.
  unfold extract_color_features. intros H. step_bind H.
  destruct a as [[| c colors] [| o opacities]]; injection H as <-; dom_inserts.
Qed.

Lemma extract_layering_features_keys (math : MathLib) (strokes : list Stroke) :
  dom (extract_layering_features math strokes) = list_to_set layer_keys.
Proof.
  unfold extract_layering_features.
  destruct (map _ strokes); dom_inserts.
Qed.

(** X23: the keys of the vector that [extract_features] returns for a
    drawing with at least one stroke are the
    whole vocabulary when some stroke has a point, and the vocabulary
    without the [comp.*] names when no stroke has one. *)
Lemma extract_features_keys
    (math : MathLib) (drawing_data : Drawing) (strokes : list Stroke)
    (fv : gmap string Q) :
  d_strokes drawing_data = Some strokes ->
  strokes <> [] ->
  extract_features math drawing_data = Ok fv ->
  dom fv = if decide (collect_points strokes = [])
           then list_to_set vocabulary ∖ list_to_set comp_keys
           else list_to_set vocabulary.
Proof.
  intros Hstrokes Hne H. unfold extract_features in H.
  rewrite Hstrokes in H. simpl default in H.
  destruct strokes as [| s0 strokes']; [congruence |].
  set (strokes := s0 :: strokes') in *.
  step_bind H. step_bind H. injection H as <-.
  unfold dict_update. rewrite !dom_union_L, dom_empty_L.
  rewrite extract_layering_features_keys, extract_geometry_features_keys.
  match goal with
  | Hc : extract_color_features _ _ = Ok _ |- _ =>
      rewrite (extract_color_features_keys _ _ _ Hc)
  end.
  match goal with
  | Hc : extract_composition_features _ _ _ _ = Ok _ |- _ =>
      rewrite (extract_composition_features_keys _ _ _ _ _ Hc)
  end.
  destruct (decide (collect_points strokes = [])); compute_done.
Qed.

(** C1: the drawing with one stroke that has no point is a drawing with at
    least one stroke, and [extract_features] returns for it a vector whose
    keys are the vocabulary without the five [comp.*] names: the returned
    key set is not the vocabulary. *)
Theorem extract_features_blank_stroke_keys (math : MathLib) :
  exists fv,
    extract_features math blank_stroke_drawing = Ok fv
    /\ dom fv = list_to_set vocabulary ∖ list_to_set comp_keys
    /\ dom fv <> list_to_set vocabulary.
Proof.
  destruct (keys_of_Some (extract_features math blank_stroke_drawing)
              (list_to_set vocabulary ∖ list_to_set comp_keys)) as (fv & Hfv & Hdom).
  { compute_done. }
  exists fv. repeat split; [exact Hfv | exact Hdom |].
  rewrite Hdom. compute_done.
Qed.






(** C7: the drawing with one stroke that is a single dot at 5000 ms has a
    session of five seconds, so the documented pen-lift rate is 1/5; the
    code skips the stroke before it reads the timestamp and returns 0. *)
Theorem pen_lift_rate_skips_dot_stroke (math : MathLib) :
  exists fv,
    extract_features math dot_drawing = Ok fv
    /\ fv !! "geom.pen_lift_rate"%string = Some 0
    /\ session_duration [dot_stroke] = 5000
    /\ documented_pen_lift_rate [dot_stroke] == 1 # 5.
Proof.
  destruct (feature_of_Some (extract_features math dot_drawing)
              "geom.pen_lift_rate"%string 0) as (fv & Hfv & Hkey).
  { compute_done. }
  exists fv. repeat split; [exact Hfv | exact Hkey | compute_done ..].
Qed.

(** C8: in the drawing with one stroke that is a single dot of pressure
    0.5, one point carries a pressure, so the documented mean pressure is
    0.5 and [compute_qc_flags] does not flag the pressure as missing; the
    loop of [extract_geometry_features] skips the stroke before it reads the
    pressure and returns the mean 1.0 of a drawing without pressure data. *)
Theorem mean_pressure_skips_dot_stroke (math : MathLib) :
  exists fv,
    extract_features math dot_drawing = Ok fv
    /\ fv !! "geom.mean_pressure"%string = Some 1.0
    /\ fv !! "geom.std_pressure"%string = Some 0
    /\ compute_qc_flags fv [dot_stroke] !! "missing_pressure"%string = Some false
    /\ documented_pressures [dot_stroke] = [0.5]
    /\ documented_mean_pressure [dot_stroke] == 0.5
    /\ ~ 1.0 == 0.5.
Proof.
  destruct (feature_of_Some (extract_features math dot_drawing)
              "geom.mean_pressure"%string 1.0) as (fv & Hfv & Hkey).
  { compute_done. }
  destruct (feature_of_Some (extract_features math dot_drawing)
              "geom.std_pressure"%string 0) as (fv' & Hfv' & Hkey').
  { compute_done. }
  assert (fv' = fv) as -> by congruence.
  exists fv.
  split; [exact Hfv | split; [exact Hkey | split; [exact Hkey' |]]].
  split; [| repeat split; compute_done].
  unfold compute_qc_flags. rewrite lookup_insert_ne by discriminate.
  rewrite lookup_insert_eq. reflexivity.
Qed.

(** C9: thirteen strokes with thirteen well-formed colors give a palette
    size of 13: the hue of ["#FF0001"] rounds to 12 and that of ["#FF0000"]
    to 0, so that the quantized hues take thirteen values, not twelve. *)
Theorem palette_size_thirteen (math : MathLib) :
  Forall (fun color => well_formed_color color = true) thirteen_colors
  /\ map (fun color =>
            match parse_channel math color 1 3, parse_channel math color 3 5,
                  parse_channel math color 5 7 with
            | Ok r, Ok g, Ok b => py_round ((rgb_to_hsv r g b).1.1 * 12)
            | _, _, _ => (-1)%Z
            end) thirteen_colors
     = [0; 1; 2; 3; 4; 5; 6; 7; 8; 9; 10; 11; 12]%Z
  /\ exists fv,
       extract_features math thirteen_color_drawing = Ok fv
       /\ fv !! "color.palette_size"%string = Some 13.
Proof.
  split; [compute_done | split; [compute_done |]].
  apply feature_of_Some. compute_done.
Qed.

(** ** The interpretation sentence *)

Lemma phrase_lower (feature : string) (z : Q) :
  ~ 0 < z ->
  phrase (feature, z) = ("lower " ++ default feature (descriptions !! feature))%string.
Proof.
  intros Hz. unfold phrase, Qltb.
  rewrite bool_decide_eq_false_2 by exact Hz. reflexivity.
Qed.

Lemma phrase_higher (feature : string) (z : Q) :
  0 < z ->
  phrase (feature, z) = ("higher " ++ default feature (descriptions !! feature))%string.
Proof.
  intros Hz. unfold phrase, Qltb.
  rewrite bool_decide_eq_true_2 by exact Hz. reflexivity.
Qed.

(** C10: [generate_interpretation_text] returns "No significant deviations
    detected." exactly when the ranked list is empty; for a non-empty list
    it returns "Top signals: " followed by the phrases of the first three
    items, joined by ", "; the phrase of an item is "higher" and its
    description when [z > 0], and "lower" and its description otherwise, in
    particular when [z] is 0. *)
Theorem generate_interpretation_text_spec (top_features : list (string * Q)) :
  (generate_interpretation_text top_features
     = "No significant deviations detected."%string <-> top_features = [])
  /\ (top_features <> [] ->
      generate_interpretation_text top_features
        = ("Top signals: " ++ join ", " (map phrase (take 3 top_features)))%string)
  /\ (forall feature z, (feature, z) ∈ top_features ->
      let desc := default feature (descriptions !! feature) in
      (z == 0 -> phrase (feature, z) = ("lower " ++ desc)%string)
      /\ (phrase (feature, z) = ("higher " ++ desc)%string <-> 0 < z)).
Proof.
  split; [| split].
  - destruct top_features as [| item rest]; simpl.
    + split; reflexivity.
    + split; intros H; discriminate H.
  - destruct top_features as [| item rest]; [congruence | reflexivity].
  - intros feature z _ desc. split.
    + intros Hz. apply phrase_lower. rewrite Hz. apply Qlt_irrefl.
    + split.
      * intros H. destruct (decide (0 < z)) as [Hz | Hz]; [exact Hz |].
        rewrite (phrase_lower _ _ Hz) in H. discriminate H.
      * apply phrase_higher.
Qed.

(** The sentence of a list whose z-scores are all 0. *)
Lemma generate_interpretation_text_witness :
  generate_interpretation_text
    [("geom.total_length", 0); ("color.hue_variance", 0.0)]%string
  = "Top signals: lower total ink length, lower color diversity"%string.
Proof.
  rewrite (proj1 (proj2 (generate_interpretation_text_spec _))) by discriminate.
  reflexivity.
Defined.

(** ** Robust z-scores *)

Lemma compute_z_scores_lookup
    (features : gmap string Q) (baseline : gmap string BaselineEntry)
    (key : string) :
  compute_z_scores features baseline !! key =
    (fun value =>
       match baseline !! key with
       | None => 0.0
       | Some entry =>
           if Qltb 0 (mad entry) then (value - median entry) / mad entry else 0.0
       end) <$> features !! key.
Proof.
  unfold compute_z_scores. rewrite map_lookup_imap.
  destruct (features !! key); reflexivity.
Qed.

(** C5: for a baseline whose scales are not negative, the z-score map has
    the keys of the current vector; the z-score of a key is
    [(value - median) / mad] when the baseline has the key with a scale
    that is not zero, and 0.0 when the baseline has the key with the scale
    zero or lacks the key; the vector [{"x": 10}] and the baseline
    [{"x": {median 3, mad 1}}] give [{"x": 7}]. *)
Theorem compute_z_scores_spec
    (features : gmap string Q) (baseline : gmap string BaselineEntry) :
  is_baseline baseline ->
  dom (compute_z_scores features baseline) = dom features
  /\ (forall key value, features !! key = Some value ->
      (forall entry, baseline !! key = Some entry -> ~ mad entry == 0 ->
         compute_z_scores features baseline !! key
         = Some ((value - median entry) / mad entry))
      /\ (forall entry, baseline !! key = Some entry -> mad entry == 0 ->
         compute_z_scores features baseline !! key = Some 0.0)
      /\ (baseline !! key = None ->
         compute_z_scores features baseline !! key = Some 0.0))
  /\ compute_z_scores {[ "x"%string := 10 ]} unit_mad_baseline
     = {[ "x"%string := 7 ]}.
Proof.
  intros Hbase. split; [| split].
  - apply set_eq. intros key. rewrite !elem_of_dom, compute_z_scores_lookup.
    destruct (features !! key); simpl; split; intros [v Hv]; eauto; discriminate.
  - intros key value Hkey. rewrite compute_z_scores_lookup, Hkey. simpl.
    split; [| split].
    + intros entry Hentry Hmad. rewrite Hentry.
      pose proof (Hbase key entry Hentry) as Hge. simpl in Hge.
      assert (0 < mad entry) as Hpos.
      { apply Qle_lt_or_eq in Hge as [H | H]; [exact H |].
        symmetry in H. contradiction. }
      unfold Qltb. rewrite bool_decide_eq_true_2 by exact Hpos. reflexivity.
    + intros entry -> Hmad. unfold Qltb.
      rewrite bool_decide_eq_false_2; [reflexivity |].
      rewrite Hmad. apply Qlt_irrefl.
    + intros ->. reflexivity.
  - compute_done.
Qed.

Lemma compute_z_scores_witness :
  compute_z_scores {[ "x"%string := 10; "y"%string := 4 ]} unit_mad_baseline
    !! "x"%string = Some ((10 - 3) / 1)
  /\ compute_z_scores {[ "x"%string := 10; "y"%string := 4 ]} unit_mad_baseline
    !! "y"%string = Some 0.0.
Proof.
  assert (is_baseline unit_mad_baseline) as Hbase.
  { apply map_Forall_singleton. compute_done. }
  pose proof (compute_z_scores_spec
                {[ "x"%string := 10; "y"%string := 4 ]} unit_mad_baseline Hbase)
    as (_ & H & _).
  split.
  - apply (proj1 (H "x"%string 10 ltac:(compute_done)) {| median := 3; mad := 1 |});
      compute_done.
  - apply (proj2 (proj2 (H "y"%string 4 ltac:(compute_done)))); compute_done.
Defined.

(** ** The robust baseline *)

Lemma collect_values_foldl
    (recent : list (gmap string Q)) (acc : gmap string (list Q)) (key : string) :
  foldl (fun feature_values features =>
           merge (fun old new =>
                    match old, new with
                    | Some values, Some value => Some (values ++ [value])
                    | None, Some value => Some [value]
                    | _, None => old
                    end)
                 feature_values features)
        acc recent !! key
  = match acc !! key, observed_values key recent with
    | None, [] => None
    | old, l => Some (default [] old ++ l)
    end.
Proof.
  revert acc. induction recent as [| features recent IH]; intros acc.
  - simpl. destruct (acc !! key); simpl; [rewrite app_nil_r |]; reflexivity.
  - simpl. rewrite IH, lookup_merge. unfold observed_values.
    destruct (acc !! key) as [values |], (features !! key) as [value |]; simpl;
      try reflexivity.
    + rewrite <- app_assoc. simpl.
      destruct (omap _ recent); reflexivity.
Qed.

Lemma collect_values_lookup (recent : list (gmap string Q)) (key : string) :
  collect_values recent !! key
  = match observed_values key recent with
    | [] => None
    | l => Some l
    end.
Proof.
  unfold collect_values. rewrite collect_values_foldl, lookup_empty.
  destruct (observed_values key recent); reflexivity.
Qed.

Lemma robust_entry_few (math : MathLib) (values : list Q) :
  (length values < 3)%nat -> mad (robust_entry math values) = 0.0.
Proof.
  intros Hlen. unfold robust_entry.
  destruct (Nat.ltb_spec (length values) 3) as [_ | H]; [reflexivity | lia].
Qed.

Lemma robust_entry_floor (math : MathLib) (values : list Q) :
  (3 <= length values)%nat -> 1e-6 <= mad (robust_entry math values).
Proof.
  intros Hlen. unfold robust_entry.
  destruct (Nat.ltb_spec (length values) 3) as [H | _]; [lia |].
  simpl. unfold Qltb. repeat case_bool_decide.
  - compute_done.
  - apply Qnot_lt_le. assumption.
  - apply Qnot_lt_le. assumption.
Qed.

(** C2, the claim as stated fails: the history of one session is not empty
    and its baseline has an entry whose scale is exactly zero. *)
Lemma compute_robust_baseline_single_session :
  single_session_history <> []
  /\ forall math : MathLib,
       compute_robust_baseline math single_session_history 30 !! "x"%string
       = Some {| median := 1; mad := 0.0 |}
       /\ mad {| median := 1; mad := 0.0 |} == 0.
Proof.
  split; [discriminate |]. intros math. split; compute_done.
Qed.

(** C2, amended: an entry of the baseline belongs to a feature that some
    session of the window has; when fewer than 3 sessions of the window have
    the feature its scale is exactly 0.0, and when at least 3 have it its
    scale is at least 1e-6, hence not zero. *)
Theorem compute_robust_baseline_mad
    (math : MathLib) (feature_history : list (gmap string Q)) (window : Z)
    (key : string) (entry : BaselineEntry) :
  compute_robust_baseline math feature_history window !! key = Some entry ->
  observed_values key (py_slice_to window feature_history) <> []
  /\ ((length (observed_values key (py_slice_to window feature_history)) < 3)%nat ->
      mad entry = 0.0)
  /\ ((3 <= length (observed_values key (py_slice_to window feature_history)))%nat ->
      1e-6 <= mad entry /\ ~ mad entry == 0).
Proof.
  unfold compute_robust_baseline.
  destruct feature_history as [| features history].
  { rewrite lookup_empty. discriminate. }
  rewrite lookup_fmap, collect_values_lookup.
  generalize (observed_values key (py_slice_to window (features :: history))).
  intros [| v values] H; [discriminate H |].
  cbv [fmap option_fmap option_map] in H. injection H as <-.
  split; [discriminate | split].
  - apply robust_entry_few.
  - intros Hlen. pose proof (robust_entry_floor math _ Hlen) as Hfloor.
    split; [exact Hfloor |]. intros Hzero. rewrite Hzero in Hfloor.
    revert Hfloor. compute_done.
Qed.

Lemma compute_robust_baseline_mad_witness :
  observed_values "x" (py_slice_to 30 five_session_history) <> []
  /\ ((length (observed_values "x" (py_slice_to 30 five_session_history)) < 3)%nat ->
      mad {| median := 3; mad := 1 |} = 0.0)
  /\ ((3 <= length (observed_values "x" (py_slice_to 30 five_session_history)))%nat ->
      1e-6 <= mad {| median := 3; mad := 1 |}
      /\ ~ mad {| median := 3; mad := 1 |} == 0).
Proof.
  apply (compute_robust_baseline_mad rational_math five_session_history 30 "x").
  compute_done.
Defined.

(** The baselines that [compute_robust_baseline] returns are baselines:
    no scale is negative. *)
Lemma compute_robust_baseline_is_baseline
    (math : MathLib) (feature_history : list (gmap string Q)) (window : Z) :
  is_baseline (compute_robust_baseline math feature_history window).
Proof.
  unfold is_baseline, compute_robust_baseline.
  destruct feature_history as [| features history]; [apply map_Forall_empty |].
  apply map_Forall_fmap. intros key values _. unfold compose.
  destruct (Nat.lt_ge_cases (length values) 3) as [Hlen | Hlen].
  - rewrite (robust_entry_few math values Hlen). compute_done.
  - apply Qle_trans with 1e-6; [compute_done |].
    apply robust_entry_floor. exact Hlen.
Qed.

(** ** Colors that do not parse *)

Lemma for_each_raises {A S : Type}
    (body : S -> A -> result S) (l : list A) (a : A) :
  a ∈ l ->
  (forall s, exists e, body s a = Raise e) ->
  forall s, exists e, for_each body l s = Raise e.
Proof.
  intros Hin Hbody. induction l as [| a' l IH]; intros s.
  - apply elem_of_nil in Hin. contradiction.
  - simpl. apply elem_of_cons in Hin as [<- | Hin].
    + destruct (Hbody s) as [e ->]. exists e. apply bind_raise.
    + destruct (body s a') as [s' | e].
      * rewrite bind_ok. apply IH. exact Hin.
      * exists e. apply bind_raise.
Qed.

Lemma parse_channel_raises (math : MathLib) (color : pystr) (a b : nat) :
  int16 math (py_substr a b color) = Raise ValueError ->
  parse_channel math color a b = Raise ValueError.
Proof. intros H. unfold parse_channel. rewrite H. reflexivity. Qed.

Lemma color_step_raises
    (math : MathLib) (acc : list (Q * Q * Q) * list Q) (stroke : Stroke)
    (a b : nat) :
  startswith (stroke_color stroke) (str "#") = true ->
  (a, b) ∈ [(1, 3); (3, 5); (5, 7)]%nat ->
  int16 math (py_substr a b (stroke_color stroke)) = Raise ValueError ->
  exists e, color_step math acc stroke = Raise e.
Proof.
  intros Hprefix Hab Hint. apply parse_channel_raises in Hint.
  destruct acc as [colors opacities]. unfold color_step.
  fold (stroke_color stroke). rewrite Hprefix.
  destruct (parse_channel math (stroke_color stroke) 1 3) as [r | e1] eqn:H1;
    [| exists e1; reflexivity].
  destruct (parse_channel math (stroke_color stroke) 3 5) as [g | e2] eqn:H2;
    [| exists e2; reflexivity].
  destruct (parse_channel math (stroke_color stroke) 5 7) as [b' | e3] eqn:H3;
    [| exists e3; reflexivity].
  exfalso. set_unfold in Hab.
  destruct Hab as [Hab | [Hab | [Hab | []]]]; injection Hab as -> ->; congruence.
Qed.

(** C4, the claim as stated fails: a stroke whose color is the name "red"
    is not a well-formed "#RRGGBB" color, and the extraction returns a
    vector with the whole vocabulary. *)
Lemma extract_features_named_color :
  d_strokes named_color_drawing <> Some []
  /\ Exists (fun stroke => well_formed_color (stroke_color stroke) = false)
       (default [] (d_strokes named_color_drawing))
  /\ forall math : MathLib,
       exists fv, extract_features math named_color_drawing = Ok fv
                  /\ dom fv = list_to_set vocabulary.
Proof.
  split; [discriminate | split; [compute_done |]].
  intros math. apply keys_of_Some. compute_done.
Qed.

(** C4, amended: when some stroke of the drawing has a color that starts
    with "#" and one of the slices [color[1:3]], [color[3:5]], [color[5:7]]
    is rejected by [int(_, 16)], [extract_features] raises and returns no
    vector. *)
Theorem extract_features_unparsable_color
    (math : MathLib) (drawing_data : Drawing) (strokes : list Stroke)
    (stroke : Stroke) (a b : nat) :
  d_strokes drawing_data = Some strokes ->
  stroke ∈ strokes ->
  startswith (stroke_color stroke) (str "#") = true ->
  (a, b) ∈ [(1, 3); (3, 5); (5, 7)]%nat ->
  int16 math (py_substr a b (stroke_color stroke)) = Raise ValueError ->
  exists e, extract_features math drawing_data = Raise e.
Proof.
  intros Hstrokes Hin Hprefix Hab Hint.
  unfold extract_features. rewrite Hstrokes. simpl default.
  destruct strokes as [| s0 strokes']; [apply elem_of_nil in Hin; contradiction |].
  set (strokes := s0 :: strokes') in *.
  destruct (extract_composition_features math strokes _ _) as [comp | e];
    [rewrite bind_ok | exists e; apply bind_raise].
  destruct (for_each_raises (color_step math) strokes stroke Hin
              (fun acc => color_step_raises math acc stroke a b Hprefix Hab Hint)
              ([], [])) as [e He].
  exists e. unfold extract_color_features. rewrite He. reflexivity.
Qed.

Lemma extract_features_unparsable_color_witness :
  exists e, extract_features rational_math bad_hex_drawing = Raise e.
Proof.
  apply (extract_features_unparsable_color rational_math bad_hex_drawing
           (default [] (d_strokes bad_hex_drawing))
           (mk_stroke "#GG0000" short_line) 1 3).
  - reflexivity.
  - apply list_elem_of_here.
  - reflexivity.
  - apply list_elem_of_here.
  - reflexivity.
Defined.

(** ** The trimmed mean *)

Lemma np_sort_sorted (l : list Q) : StronglySorted Qle (np_sort l).
Proof. apply (StronglySorted_merge_sort Qle). Qed.

Lemma np_sort_permutation (l : list Q) : np_sort l ≡ₚ l.
Proof. apply merge_sort_Permutation. Qed.

Lemma np_sort_length (l : list Q) : length (np_sort l) = length l.
Proof. apply Permutation_length, np_sort_permutation. Qed.

Lemma py_int_nonneg (q : Q) : 0 <= q -> py_int q = Qfloor q.
Proof.
  intros Hq. destruct q as [n d]. unfold py_int, Qfloor. simpl.
  apply Z.quot_div_nonneg; [| lia].
  unfold Qle in Hq. simpl in Hq. lia.
Qed.

(** The cut of a proportion below one half: it is not negative and the two
    cuts together leave at least one of [n > 0] values. *)
Lemma trim_cut_bounds (trim : Q) (n : nat) :
  0 <= trim -> trim < 1 # 2 -> (0 < n)%nat ->
  (0 <= Qfloor (trim * Qnat n))%Z /\ (2 * Qfloor (trim * Qnat n) < Z.of_nat n)%Z.
Proof.
  intros H0 Hhalf Hn.
  assert (0 < Qnat n) as Hpos.
  { unfold Qnat. rewrite <- (Zlt_Qlt 0). lia. }
  split.
  - change 0%Z with (Qfloor 0). apply Qfloor_resp_le.
    apply Qmult_le_0_compat; [exact H0 | apply Qlt_le_weak; exact Hpos].
  - rewrite Zlt_Qlt. fold (Qnat n).
    pose proof (Qfloor_le (trim * Qnat n)) as Hfl.
    rewrite inject_Z_mult.
    assert (trim * Qnat n < (1 # 2) * Qnat n) as Hlt.
    { apply Qmult_lt_compat_r; assumption. }
    change (inject_Z 2) with 2. lra.
Qed.

Lemma dict_values_nil {V : Type} (d : gmap string V) :
  dict_values d = [] <-> d = ∅.
Proof.
  unfold dict_values. rewrite <- map_to_list_empty_iff.
  destruct (map_to_list d); simpl; split; congruence.
Qed.

Lemma dict_values_length {V : Type} (d : gmap string V) :
  length (dict_values d) = size d.
Proof.
  unfold dict_values. rewrite length_fmap. apply length_map_to_list.
Qed.

(** The slice that [trim_mean] averages, with what it leaves at both ends. *)
Lemma trim_mean_split (a : list Q) (trim : Q) :
  0 <= trim -> trim < 1 # 2 -> a <> [] ->
  exists lowest kept highest,
    np_sort a = lowest ++ kept ++ highest
    /\ length lowest = trim_count trim (length a)
    /\ length highest = trim_count trim (length a)
    /\ kept <> []
    /\ trim_mean a trim = Ok (Finite (np_mean kept)).
Proof.
  intros H0 Hhalf Ha.
  assert (0 < length a)%nat as Hn by (destruct a; [congruence | simpl; lia]).
  destruct (trim_cut_bounds trim (length a) H0 Hhalf Hn) as [Hk0 Hk2].
  assert (0 <= trim * Qnat (length a)) as Hprod.
  { apply Qmult_le_0_compat; [exact H0 |].
    unfold Qnat. rewrite <- (Zle_Qle 0). lia. }
  set (k := trim_count trim (length a)).
  assert (Z.of_nat k = Qfloor (trim * Qnat (length a))) as Hk.
  { unfold k, trim_count. lia. }
  set (s := np_sort a).
  assert (length s = length a) as Hs by apply np_sort_length.
  exists (take k s), (drop k (take (length a - k) s)), (drop (length a - k) s).
  assert (length (drop k (take (length a - k) s)) = (length a - k - k)%nat) as Hkept.
  { rewrite length_drop, length_take_le by lia. reflexivity. }
  assert (drop k (take (length a - k) s) <> []) as Hne.
  { intros Hnil. rewrite Hnil in Hkept. simpl in Hkept. lia. }
  split; [| split; [| split; [| split]]].
  - rewrite app_assoc. rewrite <- (take_drop (length a - k) s) at 1. f_equal.
    rewrite <- (take_drop k (take (length a - k) s)) at 1. f_equal.
    rewrite take_take. f_equal. lia.
  - rewrite length_take_le by lia. reflexivity.
  - rewrite length_drop. lia.
  - exact Hne.
  - unfold trim_mean. destruct a as [| a0 a']; [congruence |].
    fold (Qnat (length (a0 :: a'))).
    rewrite (py_int_nonneg _ Hprod), <- Hk.
    destruct (_ || _) eqn:Hcut.
    { apply orb_true_iff in Hcut as [Hcut | Hcut]; apply Z.ltb_lt in Hcut; lia. }
    replace (Z.to_nat (Z.of_nat (length (a0 :: a')) - Z.of_nat k))
      with (length (a0 :: a') - k)%nat by lia.
    rewrite Nat2Z.id. fold s.
    destruct (drop k (take (length (a0 :: a') - k) s)) eqn:Hsl; [| reflexivity].
    congruence.
Qed.

(** C6: the anomaly score of the empty map is 0.0; for a map that is not
    empty and a proportion [trim] in [[0, 1/2)], the sorted absolute
    z-scores split into the [trim_count] lowest, the [trim_count] highest
    and a remainder that is not empty, and the score is the mean of the
    remainder; for 5 values and [trim = 0.2] one value is cut at each end,
    and the scores 1, 2, 3, 4, 5 give the mean of 2, 3, 4, which is 3. *)
Theorem compute_anomaly_score_trimmed_mean :
  (forall trim, compute_anomaly_score ∅ trim = Ok (Finite 0.0))
  /\ (forall (zmap : gmap string Q) (trim : Q),
      0 <= trim -> trim < 1 # 2 -> zmap <> ∅ ->
      exists lowest kept highest,
        lowest ++ kept ++ highest ≡ₚ map Qabs (dict_values zmap)
        /\ StronglySorted Qle (lowest ++ kept ++ highest)
        /\ length lowest = trim_count trim (size zmap)
        /\ length highest = trim_count trim (size zmap)
        /\ kept <> []
        /\ compute_anomaly_score zmap trim = Ok (Finite (np_mean kept)))
  /\ trim_count 0.2 5 = 1%nat
  /\ compute_anomaly_score five_z_scores 0.2 = Ok (Finite (np_mean [2; 3; 4]))
  /\ np_mean [2; 3; 4] == 3.
Proof.
  split; [| split; [| repeat split; compute_done]].
  - intros trim. reflexivity.
  - intros zmap trim H0 Hhalf Hne.
    assert (map Qabs (dict_values zmap) <> []) as Habs.
    { intros Hnil. apply fmap_nil_inv in Hnil.
      apply dict_values_nil in Hnil. contradiction. }
    destruct (trim_mean_split _ trim H0 Hhalf Habs)
      as (lowest & kept & highest & Hsort & Hlo & Hhi & Hkept & Hmean).
    rewrite length_map, dict_values_length in Hlo, Hhi.
    exists lowest, kept, highest. rewrite <- Hsort.
    split; [apply np_sort_permutation |].
    split; [apply np_sort_sorted |].
    split; [exact Hlo | split; [exact Hhi | split; [exact Hkept |]]].
    unfold compute_anomaly_score.
    rewrite bool_decide_eq_false_2 by exact Hne.
    destruct (map Qabs (dict_values zmap)) eqn:Hl; [congruence |].
    exact Hmean.
Qed.

Lemma compute_anomaly_score_trimmed_mean_witness :
  exists lowest kept highest,
    lowest ++ kept ++ highest ≡ₚ map Qabs (dict_values five_z_scores)
    /\ StronglySorted Qle (lowest ++ kept ++ highest)
    /\ length lowest = trim_count 0.2 (size five_z_scores)
    /\ length highest = trim_count 0.2 (size five_z_scores)
    /\ kept <> []
    /\ compute_anomaly_score five_z_scores 0.2 = Ok (Finite (np_mean kept)).
Proof.
  apply (proj1 (proj2 compute_anomaly_score_trimmed_mean)).
  - compute_done.
  - compute_done.
  - compute_done.
Defined.

(** * Properties of the remaining code *)

(** ** Sums, means and medians *)

Lemma foldl_Qplus (l : list Q) (acc : Q) : foldl Qplus acc l == acc + py_sum l.
Proof.
  unfold py_sum. revert acc. induction l as [| a l IH]; intros acc; simpl.
  - lra.
  - rewrite IH, (IH (0 + a)). lra.
Qed.

Lemma py_sum_cons (a : Q) (l : list Q) : py_sum (a :: l) == a + py_sum l.
Proof. unfold py_sum at 1. simpl. rewrite foldl_Qplus. lra. Qed.

Lemma py_sum_app (l k : list Q) : py_sum (l ++ k) == py_sum l + py_sum k.
Proof.
  induction l as [| a l IH]; simpl.
  - unfold py_sum at 2. simpl. lra.
  - rewrite !py_sum_cons, IH. lra.
Qed.

Lemma py_sum_bounds (lo hi : Q) (l : list Q) :
  Forall (fun v => lo <= v /\ v <= hi) l ->
  Qnat (length l) * lo <= py_sum l /\ py_sum l <= Qnat (length l) * hi.
Proof.
  induction 1 as [| v l [Hlo Hhi] _ [IHlo IHhi]].
  - unfold py_sum, Qnat. simpl. change (inject_Z (Z.of_nat 0)) with 0. split; lra.
  - rewrite py_sum_cons. simpl length. unfold Qnat in *.
    rewrite Nat2Z.inj_succ, <- Z.add_1_r, inject_Z_plus.
    change (inject_Z 1) with 1. split; nra.
Qed.

Lemma Qnat_pos (n : nat) : (0 < n)%nat -> 0 < Qnat n.
Proof. intros H. unfold Qnat. rewrite <- (Zlt_Qlt 0). lia. Qed.

Lemma np_mean_bounds (lo hi : Q) (l : list Q) :
  l <> [] ->
  Forall (fun v => lo <= v /\ v <= hi) l ->
  lo <= np_mean l /\ np_mean l <= hi.
Proof.
  intros Hne Hall. destruct (py_sum_bounds lo hi l Hall) as [Hlo Hhi].
  assert (0 < Qnat (length l)) as Hn.
  { apply Qnat_pos. destruct l; [congruence | simpl; lia]. }
  unfold np_mean. split.
  - apply Qle_shift_div_l; [exact Hn |]. lra.
  - apply Qle_shift_div_r; [exact Hn |]. lra.
Qed.

Lemma np_sort_Forall (P : Q -> Prop) (l : list Q) :
  Forall P l -> Forall P (np_sort l).
Proof. intros H. rewrite (np_sort_permutation l). exact H. Qed.

Lemma np_median_bounds (lo hi : Q) (l : list Q) :
  l <> [] ->
  Forall (fun v => lo <= v /\ v <= hi) l ->
  lo <= np_median l /\ np_median l <= hi.
Proof.
  intros Hne Hall. unfold np_median.
  pose proof (np_sort_Forall _ _ Hall) as Hs.
  pose proof (np_sort_length l) as Hlen.
  assert (0 < length (np_sort l))%nat as Hn.
  { rewrite Hlen. destruct l; [congruence | simpl; lia]. }
  set (s := np_sort l) in *. set (n := length s) in *.
  rewrite (Forall_nth _ 0) in Hs.
  destruct (Nat.even n) eqn:Heven.
  - apply Nat.even_spec in Heven as [k Hk].
    assert (n / 2 = k)%nat as -> by (rewrite Hk, Nat.mul_comm; apply Nat.div_mul; lia).
    destruct (Hs (k - 1)%nat) as [Ha1 Ha2]; [lia |].
    destruct (Hs k) as [Hb1 Hb2]; [lia |].
    split.
    + apply Qle_shift_div_l; lra.
    + apply Qle_shift_div_r; lra.
  - apply Hs. apply Nat.div_lt; lia.
Qed.

(** ** More on the robust baseline *)

Lemma observed_values_nil (key : string) (recent : list (gmap string Q)) :
  observed_values key recent = [] <->
  forall features, features ∈ recent -> features !! key = None.
Proof.
  unfold observed_values. induction recent as [| f recent IH]; simpl.
  - split; [intros _ features Hin; apply elem_of_nil in Hin; contradiction | reflexivity].
  - destruct (f !! key) as [v |] eqn:Hf.
    + split; [discriminate |]. intros H.
      specialize (H f (list_elem_of_here _ _)). congruence.
    + rewrite IH. split.
      * intros H features Hin. apply elem_of_cons in Hin as [-> | Hin]; auto.
      * intros H features Hin. apply H. apply list_elem_of_further. exact Hin.
Qed.

Lemma observed_values_elem (key : string) (recent : list (gmap string Q)) (v : Q) :
  v ∈ observed_values key recent <->
  exists features, features ∈ recent /\ features !! key = Some v.
Proof. unfold observed_values. apply list_elem_of_omap. Qed.

Lemma observed_values_length (key : string) (recent : list (gmap string Q)) :
  (length (observed_values key recent) <= length recent)%nat.
Proof.
  unfold observed_values. induction recent as [| f recent IH]; [reflexivity |].
  cbn [omap list_omap]. destruct (f !! key); cbn; lia.
Qed.

Lemma py_slice_to_length {A : Type} (n : Z) (l : list A) :
  (length (py_slice_to n l) <= length l)%nat.
Proof. unfold py_slice_to. destruct (0 <=? n)%Z; rewrite length_take; lia. Qed.

Lemma compute_robust_baseline_lookup
    (math : MathLib) (feature_history : list (gmap string Q)) (window : Z)
    (key : string) :
  compute_robust_baseline math feature_history window !! key
  = match observed_values key (py_slice_to window feature_history) with
    | [] => None
    | values => Some (robust_entry math values)
    end.
Proof.
  unfold compute_robust_baseline. destruct feature_history as [| f history].
  - rewrite lookup_empty. unfold py_slice_to.
    destruct (0 <=? window)%Z; rewrite take_nil; reflexivity.
  - rewrite lookup_fmap, collect_values_lookup.
    destruct (observed_values _ _); reflexivity.
Qed.

(** X1: a feature has an entry in the baseline exactly when some session
    of the window has the feature. *)
Theorem compute_robust_baseline_keys
    (math : MathLib) (feature_history : list (gmap string Q)) (window : Z)
    (key : string) :
  is_Some (compute_robust_baseline math feature_history window !! key) <->
  exists features,
    features ∈ py_slice_to window feature_history /\ is_Some (features !! key).
Proof.
  rewrite compute_robust_baseline_lookup.
  destruct (observed_values key (py_slice_to window feature_history))
    as [| v values] eqn:Hobs.
  - rewrite observed_values_nil in Hobs. split.
    + intros [e He]. discriminate He.
    + intros (features & Hin & [v Hv]). rewrite (Hobs _ Hin) in Hv. discriminate Hv.
  - split; [| eauto]. intros _.
    assert (v ∈ observed_values key (py_slice_to window feature_history)) as Hv
      by (rewrite Hobs; apply list_elem_of_here).
    apply observed_values_elem in Hv as (features & Hin & Hv). eauto.
Qed.

(** X2: for [window >= 0] the sessions after the first [window] ones do
    not change the baseline. *)
Theorem compute_robust_baseline_window
    (math : MathLib) (feature_history : list (gmap string Q)) (window : Z) :
  (0 <= window)%Z ->
  compute_robust_baseline math feature_history window
  = compute_robust_baseline math (take (Z.to_nat window) feature_history) window.
Proof.
  intros Hw. apply map_eq. intros key.
  rewrite !compute_robust_baseline_lookup. unfold py_slice_to.
  destruct (Z.leb_spec 0 window); [| lia].
  rewrite take_take, Nat.min_id. reflexivity.
Qed.

Lemma compute_robust_baseline_window_witness :
  compute_robust_baseline rational_math five_session_history 3
  = compute_robust_baseline rational_math
      (take (Z.to_nat 3) five_session_history) 3.
Proof. apply compute_robust_baseline_window. lia. Defined.

Lemma robust_entry_median (math : MathLib) (values : list Q) :
  median (robust_entry math values) = np_median values.
Proof. unfold robust_entry. destruct (_ <? _)%nat; reflexivity. Qed.

(** X3: the location of a feature lies between the smallest and the largest
    value that the sessions of the window have for it. *)
Theorem compute_robust_baseline_median_range
    (math : MathLib) (feature_history : list (gmap string Q)) (window : Z)
    (key : string) (entry : BaselineEntry) (lo hi : Q) :
  compute_robust_baseline math feature_history window !! key = Some entry ->
  (forall features v,
     features ∈ py_slice_to window feature_history ->
     features !! key = Some v -> lo <= v /\ v <= hi) ->
  lo <= median entry /\ median entry <= hi.
Proof.
  rewrite compute_robust_baseline_lookup. intros Hentry Hrange.
  assert (Forall (fun v => lo <= v /\ v <= hi)
            (observed_values key (py_slice_to window feature_history))) as Hall.
  { apply Forall_forall. intros v Hv.
    apply observed_values_elem in Hv as (features & Hin & Hv). eauto. }
  destruct (observed_values key (py_slice_to window feature_history))
    as [| v values]; [discriminate |].
  injection Hentry as <-. rewrite robust_entry_median.
  apply np_median_bounds; [discriminate | exact Hall].
Qed.

Lemma compute_robust_baseline_median_range_witness :
  1 <= median {| median := 3; mad := 1 |}
  /\ median {| median := 3; mad := 1 |} <= 5.
Proof.
  apply (compute_robust_baseline_median_range rational_math
           five_session_history 30 "x").
  - compute_done.
  - intros features v Hin Hv.
    change (py_slice_to 30 five_session_history) with five_session_history in Hin.
    unfold five_session_history in Hin.
    repeat (apply elem_of_cons in Hin as [-> | Hin];
            [rewrite lookup_singleton_eq in Hv; injection Hv as <-;
             split; compute_done |]).
    apply elem_of_nil in Hin. contradiction.
Defined.

Lemma tiny_pos : 0 < 1e-6.
Proof. reflexivity. Qed.

Lemma Forall_Qeq_bounds (c : Q) (l : list Q) :
  Forall (fun v => v == c) l -> Forall (fun v => c <= v /\ v <= c) l.
Proof.
  intros Hall. eapply Forall_impl; [exact Hall |].
  intros v Hv. cbv beta in Hv. rewrite Hv. split; apply Qle_refl.
Qed.

Lemma np_median_constant (c : Q) (l : list Q) :
  l <> [] -> Forall (fun v => v == c) l -> np_median l == c.
Proof.
  intros Hne Hall.
  destruct (np_median_bounds c c l Hne (Forall_Qeq_bounds c l Hall)).
  apply Qle_antisym; assumption.
Qed.

(** ** More on the anomaly score *)

Lemma dict_values_elem {V : Type} (d : gmap string V) (v : V) :
  v ∈ dict_values d <-> exists key, d !! key = Some v.
Proof.
  unfold dict_values. rewrite list_elem_of_fmap. split.
  - intros ([key v'] & -> & Hin). exists key. apply elem_of_map_to_list. exact Hin.
  - intros [key Hkey]. exists (key, v). split; [reflexivity |].
    apply elem_of_map_to_list. exact Hkey.
Qed.

Lemma trim_mean_between (a : list Q) (trim lo hi : Q) :
  0 <= trim -> trim < 1 # 2 -> a <> [] ->
  Forall (fun v => lo <= v /\ v <= hi) a ->
  exists score, trim_mean a trim = Ok (Finite score) /\ lo <= score /\ score <= hi.
Proof.
  intros H0 Hhalf Hne Hall.
  destruct (trim_mean_split a trim H0 Hhalf Hne)
    as (lowest & kept & highest & Hsort & _ & _ & Hkept & Hmean).
  exists (np_mean kept). split; [exact Hmean |].
  apply np_mean_bounds; [exact Hkept |].
  apply np_sort_Forall in Hall. rewrite Hsort in Hall.
  apply Forall_app in Hall as [_ Hall]. apply Forall_app in Hall as [Hall _].
  exact Hall.
Qed.

Lemma compute_anomaly_score_trim_mean (zmap : gmap string Q) (trim : Q) :
  zmap <> ∅ ->
  map Qabs (dict_values zmap) <> []
  /\ compute_anomaly_score zmap trim = trim_mean (map Qabs (dict_values zmap)) trim.
Proof.
  intros Hne.
  assert (map Qabs (dict_values zmap) <> []) as Habs.
  { intros Hnil. apply fmap_nil_inv in Hnil.
    apply dict_values_nil in Hnil. contradiction. }
  split; [exact Habs |]. unfold compute_anomaly_score.
  rewrite bool_decide_eq_false_2 by exact Hne.
  destruct (map Qabs (dict_values zmap)); [congruence | reflexivity].
Qed.

(** ** The first sessions *)

(** X6: with fewer than three sessions in the history every z-score is
    0.0, and the anomaly score is 0 for every proportion in [[0, 1/2)]. *)
Theorem cold_start_scores
    (math : MathLib) (feature_history : list (gmap string Q)) (window : Z)
    (features : gmap string Q) (trim : Q) :
  (length feature_history < 3)%nat ->
  0 <= trim -> trim < 1 # 2 ->
  (forall key, is_Some (features !! key) ->
     compute_z_scores features
       (compute_robust_baseline math feature_history window) !! key = Some 0.0)
  /\ exists score,
       compute_anomaly_score
         (compute_z_scores features
            (compute_robust_baseline math feature_history window)) trim
       = Ok (Finite score)
       /\ score == 0.
Proof.
  intros Hlen H0 Hhalf.
  set (zmap := compute_z_scores features
                 (compute_robust_baseline math feature_history window)).
  assert (forall key z, zmap !! key = Some z -> z = 0.0) as Hzero.
  { intros key z. unfold zmap. rewrite compute_z_scores_lookup.
    destruct (features !! key) as [value |]; [| discriminate]. simpl.
    rewrite compute_robust_baseline_lookup.
    destruct (observed_values key (py_slice_to window feature_history))
      as [| v values] eqn:Hobs; [congruence |].
    pose proof (observed_values_length key (py_slice_to window feature_history)).
    pose proof (py_slice_to_length window feature_history).
    rewrite <- Hobs, robust_entry_few by lia.
    intros [= <-]. reflexivity. }
  split.
  - intros key [value Hvalue].
    destruct (zmap !! key) as [z |] eqn:Hz.
    + rewrite (Hzero _ _ Hz). reflexivity.
    + unfold zmap in Hz. rewrite compute_z_scores_lookup, Hvalue in Hz. discriminate Hz.
  - destruct (decide (zmap = ∅)) as [Hempty | Hne].
    + exists 0.0. split; [| reflexivity].
      unfold compute_anomaly_score. rewrite bool_decide_eq_true_2 by exact Hempty.
      reflexivity.
    + destruct (compute_anomaly_score_trim_mean zmap trim Hne) as [Habs ->].
      destruct (trim_mean_between (map Qabs (dict_values zmap)) trim 0 0 H0 Hhalf Habs)
        as (score & Hscore & Hlo & Hhi).
      { apply Forall_fmap, Forall_forall. intros z Hz.
        apply dict_values_elem in Hz as [key Hkey].
        rewrite (Hzero _ _ Hkey). split; compute_done. }
      exists score. split; [exact Hscore | apply Qle_antisym; assumption].
Qed.

Lemma cold_start_scores_witness :
  (forall key, is_Some (({[ "x"%string := 10 ]} : gmap string Q) !! key) ->
     compute_z_scores {[ "x"%string := 10 ]}
       (compute_robust_baseline rational_math single_session_history 30) !! key
     = Some 0.0)
  /\ exists score,
       compute_anomaly_score
         (compute_z_scores {[ "x"%string := 10 ]}
            (compute_robust_baseline rational_math single_session_history 30)) 0.2
       = Ok (Finite score) /\ score == 0.
Proof.
  apply (cold_start_scores rational_math single_session_history 30
           {[ "x"%string := 10 ]} 0.2); compute_done.
Defined.

(** ** The exponential moving average *)

Lemma ema_foldl (alpha : Q) (rest ema : list Q) (e : Q) :
  foldl (fun ema v => ema ++ [alpha * v + (1 - alpha) * py_last 0 ema])
    (ema ++ [e]) rest
  = (ema ++ [e]) ++ ema_from alpha e rest.
Proof.
  revert ema e. induction rest as [| v rest IH]; intros ema e; cbn [foldl ema_from].
  - rewrite app_nil_r. reflexivity.
  - unfold py_last. rewrite last_last, IH, <- app_assoc. reflexivity.
Qed.

Lemma compute_ema_cons (v0 : Q) (rest : list Q) (alpha : Q) :
  compute_ema (v0 :: rest) alpha = v0 :: ema_from alpha v0 rest.
Proof. unfold compute_ema. apply (ema_foldl alpha rest [] v0). Qed.

Lemma ema_from_length (alpha prev : Q) (rest : list Q) :
  length (ema_from alpha prev rest) = length rest.
Proof.
  revert prev. induction rest as [| v rest IH]; intros prev; simpl; [| rewrite IH]; reflexivity.
Qed.

Lemma ema_from_one (prev : Q) (rest : list Q) :
  Forall2 Qeq (ema_from 1 prev rest) rest.
Proof.
  revert prev. induction rest as [| v rest IH]; intros prev; simpl; constructor.
  - lra.
  - apply IH.
Qed.

(** X8: with the smoothing factor 1 the moving average is the input. *)
Theorem compute_ema_alpha_one (values : list Q) :
  Forall2 Qeq (compute_ema values 1) values.
Proof.
  destruct values as [| v0 rest]; [constructor |].
  rewrite compute_ema_cons. constructor; [reflexivity | apply ema_from_one].
Qed.

(** X9: with the smoothing factor 0 every value of the moving average is the
    first input value. *)
Theorem compute_ema_alpha_zero (values : list Q) (v0 : Q) (rest : list Q) :
  values = v0 :: rest ->
  length (compute_ema values 0) = length values
  /\ Forall (fun e => e == v0) (compute_ema values 0).
Proof.
  intros ->. rewrite compute_ema_cons. split.
  - simpl. rewrite ema_from_length. reflexivity.
  - constructor; [reflexivity |].
    assert (forall prev, prev == v0 -> Forall (fun e => e == v0) (ema_from 0 prev rest)) as H.
    { induction rest as [| v rest IH]; intros prev Hprev; simpl; constructor.
      - rewrite Hprev. lra.
      - apply IH. rewrite Hprev. lra. }
    apply H. reflexivity.
Qed.

Lemma compute_ema_alpha_zero_witness :
  length (compute_ema [4; 2; 9] 0) = length [4; 2; 9]
  /\ Forall (fun e => e == 4) (compute_ema [4; 2; 9] 0).
Proof. apply (compute_ema_alpha_zero [4; 2; 9] 4 [2; 9]). reflexivity. Defined.

(** ** The ranking of the features *)

Lemma insert_desc_permutation (x : string * Q) (l : list (string * Q)) :
  insert_desc x l ≡ₚ x :: l.
Proof.
  induction l as [| y l IH]; simpl; [reflexivity |].
  destruct (Qleb _ _); [reflexivity |].
  rewrite IH. apply Permutation_swap.
Qed.

Lemma sorted_desc_permutation (items : list (string * Q)) :
  sorted_desc items ≡ₚ items.
Proof.
  induction items as [| x items IH]; simpl; [reflexivity |].
  rewrite insert_desc_permutation, IH. reflexivity.
Qed.

Lemma insert_desc_sorted (x : string * Q) (l : list (string * Q)) :
  StronglySorted ge_abs l -> StronglySorted ge_abs (insert_desc x l).
Proof.
  induction 1 as [| y l Hsorted IH Hall]; simpl.
  - repeat constructor.
  - unfold Qleb. case_bool_decide as Hle.
    + constructor; [constructor; assumption |].
      constructor; [exact Hle |].
      eapply Forall_impl; [exact Hall |]. intros z Hz. unfold ge_abs in *.
      eapply Qle_trans; eassumption.
    + constructor; [exact IH |].
      rewrite insert_desc_permutation. constructor; [| exact Hall].
      unfold ge_abs. apply Qlt_le_weak, Qnot_le_lt. exact Hle.
Qed.

Lemma sorted_desc_sorted (items : list (string * Q)) :
  StronglySorted ge_abs (sorted_desc items).
Proof.
  induction items as [| x items IH]; simpl; [constructor |].
  apply insert_desc_sorted, IH.
Qed.

Lemma insert_desc_filter (a : Q) (x : string * Q) (l : list (string * Q)) :
  filter (fun item => Qabs item.2 == a) (insert_desc x l)
  = filter (fun item => Qabs item.2 == a) (x :: l).
Proof.
  induction l as [| y l IH]; simpl; [reflexivity |].
  unfold Qleb. case_bool_decide as Hle; [reflexivity |].
  rewrite filter_cons, IH, !filter_cons.
  destruct (decide (Qabs y.2 == a)) as [Hy | Hy];
    destruct (decide (Qabs x.2 == a)) as [Hx | Hx]; try reflexivity.
  exfalso. apply Hle. rewrite Hx, Hy. apply Qle_refl.
Qed.

Lemma sorted_desc_filter (a : Q) (items : list (string * Q)) :
  filter (fun item => Qabs item.2 == a) (sorted_desc items)
  = filter (fun item => Qabs item.2 == a) items.
Proof.
  induction items as [| x items IH]; simpl; [reflexivity |].
  rewrite insert_desc_filter, !filter_cons, IH. reflexivity.
Qed.

Lemma py_slice_to_take {A : Type} (n : Z) (l : list A) :
  exists k, py_slice_to n l = take k l /\ ((0 <= n)%Z -> k = Z.to_nat n).
Proof.
  unfold py_slice_to. destruct (Z.leb_spec 0 n).
  - exists (Z.to_nat n). split; [reflexivity | reflexivity].
  - eexists. split; [reflexivity | lia].
Qed.

(** X10: the ranking returns a prefix of the items in the order of decreasing
    absolute z-score: no item left out has a larger absolute z-score than a
    returned one, and for [top_n >= 0] the prefix has [top_n] items, or all
    of them if there are fewer. *)
Theorem identify_top_contributing_features_spec
    (zmap_items : list (string * Q)) (top_n : Z) :
  exists rest,
    identify_top_contributing_features zmap_items top_n ++ rest ≡ₚ zmap_items
    /\ StronglySorted ge_abs
         (identify_top_contributing_features zmap_items top_n ++ rest)
    /\ (forall a b,
          a ∈ identify_top_contributing_features zmap_items top_n ->
          b ∈ rest -> Qabs b.2 <= Qabs a.2)
    /\ ((0 <= top_n)%Z ->
        length (identify_top_contributing_features zmap_items top_n)
        = Nat.min (Z.to_nat top_n) (length zmap_items)).
Proof.
  unfold identify_top_contributing_features.
  destruct (py_slice_to_take top_n (sorted_desc zmap_items)) as (k & -> & Hk).
  exists (drop k (sorted_desc zmap_items)).
  rewrite take_drop.
  split; [apply sorted_desc_permutation |].
  split; [apply sorted_desc_sorted |].
  split.
  - intros a b Ha Hb.
    pose proof (sorted_desc_sorted zmap_items) as Hs.
    rewrite <- (take_drop k (sorted_desc zmap_items)) in Hs.
    apply (StronglySorted_app_1_elem_of _ _ _ a b Hs Ha Hb).
  - intros Hn. rewrite (Hk Hn), length_take.
    rewrite (Permutation_length (sorted_desc_permutation zmap_items)). reflexivity.
Qed.

(** X11: the ranking is stable: the items of one absolute z-score are ranked in
    the order in which the z-score map has them. *)
Theorem identify_top_contributing_features_stable
    (zmap_items : list (string * Q)) (a : Q) :
  filter (fun item => Qabs item.2 == a)
    (identify_top_contributing_features zmap_items
       (Z.of_nat (length zmap_items)))
  = filter (fun item => Qabs item.2 == a) zmap_items.
Proof.
  unfold identify_top_contributing_features, py_slice_to.
  destruct (Z.leb_spec 0 (Z.of_nat (length zmap_items))); [| lia].
  rewrite Nat2Z.id, take_ge.
  - apply sorted_desc_filter.
  - rewrite (Permutation_length (sorted_desc_permutation zmap_items)). lia.
Qed.

(** X13: fewer than five scores, or scores that are all equal, give no change
    point. *)
Theorem detect_change_points_simple_none
    (anomaly_scores : list Q) (threshold c : Q) :
  (length anomaly_scores < 5)%nat \/ Forall (fun s => s == c) anomaly_scores ->
  detect_change_points_simple anomaly_scores threshold = [].
Proof.
  intros H. unfold detect_change_points_simple.
  destruct (Nat.ltb_spec (length anomaly_scores) 5) as [Hshort | Hlong];
    [reflexivity |].
  destruct H as [H | Hall]; [lia |].
  assert (anomaly_scores <> []) as Hne
    by (destruct anomaly_scores; [simpl in Hlong; lia | discriminate]).
  pose proof (np_median_constant c _ Hne Hall) as Hmed.
  assert (np_median (map (fun s => Qabs (s - np_median anomaly_scores)) anomaly_scores)
          == 0) as Hmad.
  { apply np_median_constant.
    - destruct anomaly_scores; [congruence | discriminate].
    - apply Forall_fmap. eapply Forall_impl; [exact Hall |].
      intros s Hs. unfold compose. cbv beta in *.
      rewrite Hs, Hmed. assert (c - c == 0) as -> by lra. reflexivity. }
  unfold Qltb. rewrite bool_decide_eq_true_2; [reflexivity |].
  rewrite Hmad. exact tiny_pos.
Qed.

Lemma detect_change_points_simple_none_witness :
  detect_change_points_simple [1; 50; 1] 2.5 = [].
Proof.
  apply (detect_change_points_simple_none [1; 50; 1] 2.5 0).
  left. simpl. lia.
Defined.

Lemma filter_length_mono {A : Type} (P R : A -> Prop)
    `{forall x, Decision (P x)} `{forall x, Decision (R x)} (l : list A) :
  (forall x, P x -> R x) ->
  (length (filter P l) <= length (filter R l))%nat.
Proof.
  intros Himp. induction l as [| x l IH]; [reflexivity |].
  rewrite !filter_cons.
  destruct (decide (P x)) as [HP | HP], (decide (R x)) as [HR | HR]; simpl; try lia.
  exfalso. apply HR, Himp, HP.
Qed.

Lemma filter_seq_length {A : Type} (P : A -> Prop) (F : nat -> Prop)
    `{forall x, Decision (P x)} `{forall i, Decision (F i)} (l : list A) (a : nat) :
  (forall j x, l !! j = Some x -> (F (a + j)%nat <-> P x)) ->
  length (filter F (seq a (length l))) = length (filter P l).
Proof.
  revert a. induction l as [| x l IH]; intros a Hiff; [reflexivity |].
  simpl length. simpl seq. rewrite !filter_cons.
  assert (length (filter F (seq (S a) (length l))) = length (filter P l)) as Hrec.
  { apply IH. intros j y Hj. rewrite <- (Hiff (S j) y Hj).
    replace (a + S j)%nat with (S a + j)%nat by lia. reflexivity. }
  pose proof (Hiff 0%nat x eq_refl) as Hhead. rewrite Nat.add_0_r in Hhead.
  destruct (decide (F a)) as [HF | HF], (decide (P x)) as [HP | HP]; simpl;
    try (rewrite Hrec; reflexivity); tauto.
Qed.

Lemma filter_none {A : Type} (P : A -> Prop) `{forall x, Decision (P x)} (l : list A) :
  Forall (fun x => ~ P x) l -> filter P l = [].
Proof.
  induction 1 as [| x l Hx _ IH]; [reflexivity |].
  rewrite filter_cons. destruct (decide (P x)); [contradiction | exact IH].
Qed.

(** In a sorted list, at most the values after an index can exceed a bound
    that the value at the index respects. *)
Lemma sorted_count_above (s : list Q) (j : nat) (y x : Q) :
  StronglySorted Qle s -> s !! j = Some y -> y <= x ->
  (length (filter (fun v => (x < v)%Q) s) + S j <= length s)%nat.
Proof.
  intros Hs Hj Hyx.
  rewrite <- (take_drop_middle s j y Hj) in Hs |- *.
  apply StronglySorted_app in Hs as (Hcross & _ & _).
  rewrite filter_app, filter_cons.
  assert (filter (fun v => x < v) (take j s) = []) as ->.
  { apply filter_none, Forall_forall. intros v Hv Hlt.
    specialize (Hcross v y Hv (list_elem_of_here _ _)).
    apply (Qlt_not_le _ _ Hlt). eapply Qle_trans; eassumption. }
  destruct (decide (x < y)) as [Hlt | _]; [exfalso; apply (Qlt_not_le _ _ Hlt Hyx) |].
  pose proof (lookup_lt_Some _ _ _ Hj).
  pose proof (length_filter (fun v => x < v) (drop (S j) s)).
  rewrite length_drop in *. simpl. rewrite length_app, length_take. simpl.
  rewrite length_drop. lia.
Qed.

Lemma sorted_lookup_le (s : list Q) (i j : nat) (a b : Q) :
  StronglySorted Qle s -> s !! i = Some a -> s !! j = Some b -> (i < j)%nat ->
  a <= b.
Proof.
  intros Hs Hi Hj Hlt.
  rewrite <- (take_drop_middle s i a Hi) in Hs.
  apply StronglySorted_app in Hs as (_ & _ & Hs).
  apply StronglySorted_cons in Hs as [Hall _].
  rewrite Forall_forall in Hall. apply Hall.
  apply (list_elem_of_lookup_2 _ (j - S i)).
  rewrite lookup_drop. replace (S i + (j - S i))%nat with j by lia. exact Hj.
Qed.

(** The median of a list is at least the value in the middle of the sorted
    list, or the lower of the two values in the middle. *)
Lemma np_median_lower_middle (d : list Q) :
  d <> [] ->
  exists j y,
    np_sort d !! j = Some y /\ y <= np_median d
    /\ (length d <= 2 * S j)%nat.
Proof.
  intros Hne. unfold np_median.
  pose proof (np_sort_sorted d) as Hs.
  pose proof (np_sort_length d) as Hlen.
  assert (0 < length (np_sort d))%nat as Hn.
  { rewrite Hlen. destruct d; [congruence | simpl; lia]. }
  set (s := np_sort d) in *. set (n := length s) in *.
  destruct (Nat.even n) eqn:Heven.
  - apply Nat.even_spec in Heven as [k Hk].
    assert (n / 2 = k)%nat as -> by (rewrite Hk, Nat.mul_comm; apply Nat.div_mul; lia).
    destruct (lookup_lt_is_Some_2 s (k - 1)) as [y1 Hy1]; [fold n; lia |].
    destruct (lookup_lt_is_Some_2 s k) as [y2 Hy2]; [fold n; lia |].
    rewrite (nth_lookup_Some _ _ _ _ Hy1), (nth_lookup_Some _ _ _ _ Hy2).
    pose proof (sorted_lookup_le s (k - 1) k y1 y2 Hs Hy1 Hy2 ltac:(lia)) as Hle.
    exists (k - 1)%nat, y1. split; [exact Hy1 | split].
    + apply Qle_shift_div_l; lra.
    + lia.
  - assert (n / 2 < n)%nat as Hmid by (apply Nat.div_lt; lia).
    destruct (lookup_lt_is_Some_2 s (n / 2)) as [y Hy]; [exact Hmid |].
    rewrite (nth_lookup_Some _ _ _ _ Hy).
    exists (n / 2)%nat, y. split; [exact Hy | split; [apply Qle_refl |]].
    rewrite <- Hlen.
    pose proof (Nat.div_mod_eq n 2) as Hdm.
    assert (n mod 2 < 2)%nat by (apply Nat.mod_upper_bound; lia).
    lia.
Qed.

(** At most half of the values of a list exceed its median. *)
Lemma count_above_median (d : list Q) :
  (2 * length (filter (fun v => (np_median d < v)%Q) d) <= length d)%nat.
Proof.
  destruct d as [| v0 d']; [simpl; lia |].
  set (d := v0 :: d').
  destruct (np_median_lower_middle d) as (j & y & Hj & Hle & Hhalf); [discriminate |].
  pose proof (sorted_count_above (np_sort d) j y (np_median d)
                (np_sort_sorted d) Hj Hle) as Hcount.
  rewrite np_sort_length in Hcount.
  assert (length (filter (fun v => (np_median d < v)%Q) (np_sort d))
          = length (filter (fun v => (np_median d < v)%Q) d)) as Hperm.
  { apply Permutation_length. rewrite (np_sort_permutation d). reflexivity. }
  rewrite Hperm in Hcount. lia.
Qed.

(** X14: with a threshold of 1 or more, at most half of the scores are change
    points. *)
Theorem detect_change_points_simple_half (anomaly_scores : list Q) (threshold : Q) :
  1 <= threshold ->
  (2 * length (detect_change_points_simple anomaly_scores threshold)
   <= length anomaly_scores)%nat.
Proof.
  intros Hthr. unfold detect_change_points_simple.
  destruct (Nat.ltb_spec (length anomaly_scores) 5) as [Hshort | Hlong];
    [simpl; lia |].
  fold (deviations anomaly_scores).
  destruct (Qltb _ 1e-6) eqn:Hmad; [simpl; lia |].
  unfold Qltb in Hmad. apply bool_decide_eq_false in Hmad.
  apply Qnot_lt_le in Hmad. pose proof tiny_pos as Htiny.
  set (m := np_median (deviations anomaly_scores)) in *.
  set (med := np_median anomaly_scores).
  eapply Nat.le_trans;
    [apply Nat.mul_le_mono_l,
       (filter_length_mono _ (fun i => (m < Qabs (nth i anomaly_scores 0 - med))%Q)) |].
  { intros i Hi. unfold Qltb in Hi. apply bool_decide_eq_true in Hi.
    eapply Qle_lt_trans; [| exact Hi]. nra. }
  rewrite <- (length_map (fun s => Qabs (s - med)) anomaly_scores).
  fold med. change (map (fun s => Qabs (s - med)) anomaly_scores)
    with (deviations anomaly_scores).
  rewrite (filter_seq_length (fun v => (m < v)%Q)
             (fun i => (m < Qabs (nth i anomaly_scores 0 - med))%Q)
             (deviations anomaly_scores) 0).
  - apply count_above_median.
  - intros j x Hj. unfold deviations in Hj. rewrite list_lookup_fmap in Hj.
    destruct (anomaly_scores !! j) as [s |] eqn:Hs; [| discriminate Hj].
    injection Hj as <-. rewrite (nth_lookup_Some _ _ _ _ Hs). reflexivity.
Qed.

Lemma detect_change_points_simple_half_witness :
  (2 * length (detect_change_points_simple [1; 2; 100; 3; 2; 1]%Q 2.5)
   <= length [1; 2; 100; 3; 2; 1]%Q)%nat.
Proof. apply detect_change_points_simple_half. compute_done. Defined.

Example detect_change_points_simple_outlier :
  detect_change_points_simple [1; 2; 100; 3; 2; 1] 2.5 = [2%nat].
Proof. reflexivity. Qed.

(** ** The color conversion *)

Lemma py_max_spec (a b : Q) :
  a <= py_max a b /\ b <= py_max a b /\ (py_max a b = a \/ py_max a b = b).
Proof.
  unfold py_max, Qltb. case_bool_decide as H.
  - repeat split; [apply Qlt_le_weak; exact H | apply Qle_refl | right; reflexivity].
  - apply Qnot_lt_le in H. repeat split; [apply Qle_refl | exact H | left; reflexivity].
Qed.

Lemma py_min_spec (a b : Q) :
  py_min a b <= a /\ py_min a b <= b /\ (py_min a b = a \/ py_min a b = b).
Proof.
  unfold py_min, Qltb. case_bool_decide as H.
  - repeat split; [apply Qlt_le_weak; exact H | apply Qle_refl | right; reflexivity].
  - apply Qnot_lt_le in H. repeat split; [apply Qle_refl | exact H | left; reflexivity].
Qed.

Lemma py_mod_range (a b : Q) : 0 < b -> 0 <= py_mod a b /\ py_mod a b < b.
Proof.
  intros Hb. unfold py_mod.
  pose proof (Qfloor_le (a / b)) as Hlo. pose proof (Qlt_floor (a / b)) as Hhi.
  rewrite inject_Z_plus in Hhi. change (inject_Z 1) with 1 in Hhi.
  set (f := inject_Z (Qfloor (a / b))) in *.
  assert (a == b * (a / b)) as Ha by (field; lra).
  split.
  - assert (b * f <= b * (a / b)) by (apply Qmult_le_l; assumption). lra.
  - assert (b * (a / b) < b * (f + 1)) by (apply Qmult_lt_l; assumption). lra.
Qed.

Lemma Qdiv_range (a d : Q) : 0 < d -> - d <= a -> a <= d -> -1 <= a / d /\ a / d <= 1.
Proof.
  intros Hd Hlo Hhi. split.
  - apply Qle_shift_div_l; [exact Hd | lra].
  - apply Qle_shift_div_r; [exact Hd | lra].
Qed.

(** The hue of every color lies in [[0, 1)]. *)
Lemma rgb_to_hsv_hue (r g b : Q) :
  0 <= (rgb_to_hsv r g b).1.1 /\ (rgb_to_hsv r g b).1.1 < 1.
Proof.
  unfold rgb_to_hsv. cbn [fst snd].
  destruct (py_max_spec r g) as (Hr1 & Hg1 & _).
  destruct (py_max_spec (py_max r g) b) as (Hrg1 & Hb1 & _).
  destruct (py_min_spec r g) as (Hr2 & Hg2 & _).
  destruct (py_min_spec (py_min r g) b) as (Hrg2 & Hb2 & _).
  set (max_c := py_max (py_max r g) b) in *.
  set (min_c := py_min (py_min r g) b) in *.
  set (delta := max_c - min_c).
  assert (0 <= delta) as Hdelta by (unfold delta; lra).
  unfold Qeqb. case_bool_decide as Hd0; [split; compute_done |].
  assert (0 < delta) as Hpos.
  { apply Qle_lt_or_eq in Hdelta as [H | H]; [exact H | symmetry in H; contradiction]. }
  assert (forall h, 0 <= h -> h < 6 -> 0 <= h / 6.0 /\ h / 6.0 < 1) as Hsix.
  { intros h Hh0 Hh6. split.
    - apply Qle_shift_div_l; [reflexivity | lra].
    - apply Qlt_shift_div_r; [reflexivity | lra]. }
  case_bool_decide as Hmr.
  { apply Hsix; apply py_mod_range; reflexivity. }
  case_bool_decide as Hmg.
  - destruct (Qdiv_range (b - r) delta Hpos) as [Hlo Hhi]; [unfold delta; lra .. |].
    apply Hsix; lra.
  - destruct (Qdiv_range (r - g) delta Hpos) as [Hlo Hhi]; [unfold delta; lra .. |].
    apply Hsix; lra.
Qed.

(** X15: for channels in [[0, 1]] the hue, the saturation and the value
    lie in [[0, 1]], and a gray has the hue 0 and the saturation 0.  (The
    remainder of the division by 6 can round up to 6 in floating point, so
    that the bound on the hue is stated with 1 included.) *)
Theorem rgb_to_hsv_ranges (r g b : Q) :
  0 <= r /\ r <= 1 -> 0 <= g /\ g <= 1 -> 0 <= b /\ b <= 1 ->
  (0 <= (rgb_to_hsv r g b).1.1 /\ (rgb_to_hsv r g b).1.1 <= 1)
  /\ (0 <= (rgb_to_hsv r g b).1.2 /\ (rgb_to_hsv r g b).1.2 <= 1)
  /\ (0 <= (rgb_to_hsv r g b).2 /\ (rgb_to_hsv r g b).2 <= 1)
  /\ (r == g -> g == b ->
      (rgb_to_hsv r g b).1.1 == 0 /\ (rgb_to_hsv r g b).1.2 == 0).
Proof.
  intros [Hr0 Hr1] [Hg0 Hg1] [Hb0 Hb1].
  split.
  { destruct (rgb_to_hsv_hue r g b) as [Hh0 Hh1].
    split; [exact Hh0 | apply Qlt_le_weak; exact Hh1]. }
  unfold rgb_to_hsv. cbn [fst snd].
  destruct (py_max_spec r g) as (Hra & Hga & Hrg).
  destruct (py_max_spec (py_max r g) b) as (Hrga & Hba & Hmax).
  destruct (py_min_spec r g) as (Hri & Hgi & Hrgi).
  destruct (py_min_spec (py_min r g) b) as (Hrgi' & Hbi & Hmin).
  assert (py_max (py_max r g) b <= 1) as Hmax1.
  { destruct Hmax as [-> | ->]; [destruct Hrg as [-> | ->] |]; assumption. }
  assert (0 <= py_min (py_min r g) b) as Hmin0.
  { destruct Hmin as [-> | ->]; [destruct Hrgi as [-> | ->] |]; assumption. }
  set (max_c := py_max (py_max r g) b) in *.
  set (min_c := py_min (py_min r g) b) in *.
  assert (0 <= max_c) as Hmax0 by lra.
  split; [| split].
  - unfold Qeqb. case_bool_decide as Hz; [split; [apply Qle_refl | discriminate] |].
    assert (0 < max_c) as Hpos.
    { apply Qle_lt_or_eq in Hmax0 as [H | H]; [exact H | symmetry in H; contradiction]. }
    split.
    + apply Qle_shift_div_l; [exact Hpos | lra].
    + apply Qle_shift_div_r; [exact Hpos | lra].
  - split; assumption.
  - intros Hrg' Hgb.
    assert (max_c <= r) as Hmr.
    { destruct Hmax as [Hm | Hm];
        [destruct Hrg as [Hq | Hq]; rewrite Hm, Hq | rewrite Hm]; lra. }
    assert (r <= min_c) as Hrm.
    { destruct Hmin as [Hm | Hm];
        [destruct Hrgi as [Hq | Hq]; rewrite Hm, Hq | rewrite Hm]; lra. }
    assert (max_c - min_c == 0) as Hdelta by lra.
    unfold Qeqb. rewrite (bool_decide_eq_true_2 (max_c - min_c == 0) Hdelta).
    split; [reflexivity |].
    case_bool_decide; [reflexivity |]. rewrite Hdelta. reflexivity.
Qed.

Lemma rgb_to_hsv_ranges_witness :
  (0 <= (rgb_to_hsv 1 (1 # 2) 0).1.1 /\ (rgb_to_hsv 1 (1 # 2) 0).1.1 <= 1)
  /\ (0 <= (rgb_to_hsv 1 (1 # 2) 0).1.2 /\ (rgb_to_hsv 1 (1 # 2) 0).1.2 <= 1)
  /\ (0 <= (rgb_to_hsv 1 (1 # 2) 0).2 /\ (rgb_to_hsv 1 (1 # 2) 0).2 <= 1)
  /\ (1 == 1 # 2 -> 1 # 2 == 0 ->
      (rgb_to_hsv 1 (1 # 2) 0).1.1 == 0 /\ (rgb_to_hsv 1 (1 # 2) 0).1.2 == 0).
Proof. apply rgb_to_hsv_ranges; compute_done. Defined.

(** ** Well-formed colors *)

Definition hex_characters : list N :=
  map ord (list_ascii_of_string "0123456789ABCDEFabcdef").

Lemma hex_digit_characters (c : N) :
  bool_decide (is_Some (hex_digit c)) = true -> c ∈ hex_characters.
Proof.
  intros H. apply bool_decide_eq_true in H. destruct H as [d H].
  unfold hex_digit in H.
  assert ((48 <= c <= 57)%N \/ (65 <= c <= 70)%N \/ (97 <= c <= 102)%N) as Hc.
  { cbv zeta in H.
    destruct ((48 <=? Z.of_N c) && (Z.of_N c <=? 57))%Z eqn:H1; [lia |].
    destruct ((65 <=? Z.of_N c) && (Z.of_N c <=? 70))%Z eqn:H2; [lia |].
    destruct ((97 <=? Z.of_N c) && (Z.of_N c <=? 102))%Z eqn:H3;
      [lia | discriminate H]. }
  cut (bool_decide (c ∈ hex_characters) = true); [apply bool_decide_eq_true |].
  assert (c = 48 \/ c = 49 \/ c = 50 \/ c = 51 \/ c = 52 \/ c = 53 \/ c = 54
          \/ c = 55 \/ c = 56 \/ c = 57 \/ c = 65 \/ c = 66 \/ c = 67 \/ c = 68
          \/ c = 69 \/ c = 70 \/ c = 97 \/ c = 98 \/ c = 99 \/ c = 100
          \/ c = 101 \/ c = 102)%N as Hcases by lia.
  repeat (destruct Hcases as [-> | Hcases]; [reflexivity |]).
  rewrite Hcases. reflexivity.
Qed.

Lemma int16_two_hex (math : MathLib) (c1 c2 : N) :
  bool_decide (is_Some (hex_digit c1)) = true ->
  bool_decide (is_Some (hex_digit c2)) = true ->
  two_hex_ok math c1 c2 = true.
Proof.
  intros H1 H2.
  apply hex_digit_characters in H1, H2.
  cut (forallb (fun c1 => forallb (fun c2 => two_hex_ok math c1 c2) hex_characters)
         hex_characters = true).
  { intros Hall. rewrite forallb_forall in Hall.
    specialize (Hall c1 (proj1 (list_elem_of_In _ _) H1)).
    rewrite forallb_forall in Hall.
    apply (Hall c2 (proj1 (list_elem_of_In _ _) H2)). }
  reflexivity.
Qed.

Lemma parse_channel_two_hex
    (math : MathLib) (color : pystr) (a b : nat) (c1 c2 : N) :
  py_substr a b color = [c1; c2] ->
  bool_decide (is_Some (hex_digit c1)) = true ->
  bool_decide (is_Some (hex_digit c2)) = true ->
  exists q, parse_channel math color a b = Ok q /\ 0 <= q /\ q <= 1.
Proof.
  intros Hsub H1 H2. pose proof (int16_two_hex math c1 c2 H1 H2) as Hok.
  unfold two_hex_ok in Hok. unfold parse_channel. rewrite Hsub.
  destruct (int16 math [c1; c2]) as [n | e]; [| discriminate Hok].
  apply andb_true_iff in Hok as [Hlo Hhi].
  apply Z.leb_le in Hlo, Hhi. rewrite Zle_Qle in Hlo, Hhi.
  eexists. split; [reflexivity |]. split.
  - apply Qle_shift_div_l; [reflexivity |]. change (inject_Z 0) with 0 in Hlo. lra.
  - apply Qle_shift_div_r; [reflexivity |].
    change (inject_Z 255) with 255 in Hhi.
    assert (1 * 255.0 == 255) as -> by reflexivity. exact Hhi.
Qed.

Lemma well_formed_channels (math : MathLib) (color : pystr) (a b : nat) :
  well_formed_color color = true ->
  (a, b) ∈ [(1, 3); (3, 5); (5, 7)]%nat ->
  exists q, parse_channel math color a b = Ok q /\ 0 <= q /\ q <= 1.
Proof.
  intros Hwf Hab. unfold well_formed_color in Hwf.
  destruct color as [| c0 digits]; [discriminate Hwf |].
  apply andb_true_iff in Hwf as [Hwf Hhex].
  apply andb_true_iff in Hwf as [_ Hlen].
  destruct digits as [| c1 [| c2 [| c3 [| c4 [| c5 [| c6 [| c7 rest]]]]]]];
    try discriminate Hlen.
  cbn [forallb] in Hhex.
  repeat (apply andb_true_iff in Hhex as [? Hhex]).
  set_unfold in Hab.
  destruct Hab as [Hab | [Hab | [Hab | []]]]; injection Hab as -> ->;
    eapply parse_channel_two_hex; try reflexivity; assumption.
Qed.

(** X16: a stroke with a well-formed "#RRGGBB" color passes the parser of
    the color extraction, and each of its three channels is parsed to a
    value in [[0, 1]]. *)
Theorem well_formed_color_parses (math : MathLib) (stroke : Stroke) :
  well_formed_color (stroke_color stroke) = true ->
  color_parses math stroke = true
  /\ forall a b, (a, b) ∈ [(1, 3); (3, 5); (5, 7)]%nat ->
       exists q, parse_channel math (stroke_color stroke) a b = Ok q
                 /\ 0 <= q /\ q <= 1.
Proof.
  intros Hwf. split; [| intros a b Hab; apply well_formed_channels; assumption].
  unfold color_parses.
  destruct (well_formed_channels math _ 1 3 Hwf) as (r & -> & _); [compute_done |].
  destruct (well_formed_channels math _ 3 5 Hwf) as (g & -> & _); [compute_done |].
  destruct (well_formed_channels math _ 5 7 Hwf) as (b & -> & _); [compute_done |].
  destruct (startswith (stroke_color stroke) (str "#")); reflexivity.
Qed.

Lemma well_formed_color_parses_witness :
  color_parses rational_math (mk_stroke "#FF8000" short_line) = true
  /\ forall a b, (a, b) ∈ [(1, 3); (3, 5); (5, 7)]%nat ->
       exists q, parse_channel rational_math (str "#FF8000") a b = Ok q
                 /\ 0 <= q /\ q <= 1.
Proof.
  apply (well_formed_color_parses rational_math (mk_stroke "#FF8000" short_line)).
  reflexivity.
Defined.

(** ** The outcome of the color extraction *)

Lemma for_each_ok {A S : Type} (body : S -> A -> result S) (l : list A) :
  (forall s a, a ∈ l -> exists s', body s a = Ok s') ->
  forall s, exists s', for_each body l s = Ok s'.
Proof.
  induction l as [| a l IH]; intros Hbody s; simpl.
  - exists s. reflexivity.
  - destruct (Hbody s a (list_elem_of_here _ _)) as [s' ->]. rewrite bind_ok.
    apply IH. intros s0 a0 Hin. apply Hbody. apply list_elem_of_further. exact Hin.
Qed.

Lemma for_each_error {A S : Type}
    (body : S -> A -> result S) (l : list A) (P : PyError -> Prop) :
  (forall s a e, a ∈ l -> body s a = Raise e -> P e) ->
  forall s e, for_each body l s = Raise e -> P e.
Proof.
  induction l as [| a l IH]; intros Hbody s e; simpl; [discriminate |].
  destruct (body s a) as [s' | e'] eqn:Hstep.
  - rewrite bind_ok. apply IH. intros s0 a0 e0 Hin. apply Hbody.
    apply list_elem_of_further. exact Hin.
  - rewrite bind_raise. intros [= <-].
    apply (Hbody s a e' (list_elem_of_here _ _) Hstep).
Qed.

Lemma for_each_invariant {A S : Type}
    (body : S -> A -> result S) (l : list A) (I : S -> Prop) :
  (forall s a s', I s -> body s a = Ok s' -> I s') ->
  forall s s', I s -> for_each body l s = Ok s' -> I s'.
Proof.
  intros Hbody. induction l as [| a l IH]; intros s s' Hs; simpl.
  - intros [= <-]. exact Hs.
  - destruct (body s a) as [s1 | e] eqn:Hstep; [| discriminate].
    rewrite bind_ok. apply IH. apply (Hbody s a s1 Hs Hstep).
Qed.

Lemma PyLong_FromString_error (s : list N) (e : PyError) :
  PyLong_FromString s = Raise e -> e = ValueError.
Proof.
  unfold PyLong_FromString.
  destruct (match lstrip s with | [] => _ | _ :: _ => _ end) as [sign s2].
  cbv zeta. destruct (match _ with | [] => false | _ :: _ => _ end);
    [congruence |].
  destruct (hex_digits _ _ _ _); [discriminate | congruence].
Qed.

Lemma parse_channel_error
    (math : MathLib) (color : pystr) (a b : nat) (e : PyError) :
  parse_channel math color a b = Raise e -> e = ValueError.
Proof.
  unfold parse_channel. destruct (int16 math _) as [n | e'] eqn:Hint; [discriminate |].
  rewrite bind_raise. intros [= <-]. apply (PyLong_FromString_error _ _ Hint).
Qed.

Lemma color_step_outcome
    (math : MathLib) (acc : list (Q * Q * Q) * list Q) (stroke : Stroke) :
  (color_parses math stroke = true -> exists acc', color_step math acc stroke = Ok acc')
  /\ (color_parses math stroke = false ->
      color_step math acc stroke = Raise ValueError).
Proof.
  destruct acc as [colors opacities]. unfold color_parses, color_step.
  fold (stroke_color stroke).
  destruct (startswith (stroke_color stroke) (str "#")).
  - destruct (parse_channel math (stroke_color stroke) 1 3) as [r | e1] eqn:H1;
      [| rewrite (parse_channel_error _ _ _ _ _ H1); split; [discriminate | reflexivity]].
    destruct (parse_channel math (stroke_color stroke) 3 5) as [g | e2] eqn:H2;
      [| rewrite (parse_channel_error _ _ _ _ _ H2); split; [discriminate | reflexivity]].
    destruct (parse_channel math (stroke_color stroke) 5 7) as [b | e3] eqn:H3;
      [| rewrite (parse_channel_error _ _ _ _ _ H3); split; [discriminate | reflexivity]].
    split; [eexists; reflexivity | discriminate].
  - split; [eexists; reflexivity | discriminate].
Qed.

Lemma extract_color_features_succeeds (math : MathLib) (strokes : list Stroke) :
  forallb (color_parses math) strokes = true ->
  exists color, extract_color_features math strokes = Ok color.
Proof.
  unfold extract_color_features.
  intros Hall. rewrite forallb_forall in Hall.
  destruct (for_each_ok (color_step math) strokes)
    with (s := (@nil (Q * Q * Q), @nil Q)) as [[colors opacities] ->].
  { intros s a Hin. apply color_step_outcome, Hall, list_elem_of_In, Hin. }
  rewrite bind_ok. destruct opacities; eexists; reflexivity.
Qed.

Lemma forallb_false {A : Type} (f : A -> bool) (l : list A) :
  forallb f l = false -> exists a, a ∈ l /\ f a = false.
Proof.
  induction l as [| a l IH]; [discriminate |].
  simpl. destruct (f a) eqn:Ha.
  - intros H. destruct (IH H) as (a' & Hin & Hbad).
    exists a'. split; [apply list_elem_of_further; exact Hin | exact Hbad].
  - intros _. exists a. split; [apply list_elem_of_here | exact Ha].
Qed.

(** X17: the color extraction raises [ValueError] exactly when some stroke
    has a color that starts with "#" and has one of the three slices
    rejected by [int(_, 16)]. *)
Theorem extract_color_features_value_error
    (math : MathLib) (strokes : list Stroke) :
  extract_color_features math strokes = Raise ValueError
  <-> exists stroke, stroke ∈ strokes /\ color_parses math stroke = false.
Proof.
  split.
  - intros Hraise. apply forallb_false.
    destruct (forallb (color_parses math) strokes) eqn:Hall; [| reflexivity].
    destruct (extract_color_features_succeeds math strokes Hall) as [color Hok].
    congruence.
  - intros (stroke & Hin & Hbad). unfold extract_color_features.
    destruct (for_each_raises (color_step math) strokes stroke Hin)
      with (s := (@nil (Q * Q * Q), @nil Q)) as [e He].
    { intros acc. exists ValueError. apply color_step_outcome, Hbad. }
    assert (e = ValueError) as ->.
    { apply (for_each_error (color_step math) strokes (fun e => e = ValueError))
        with (s := (@nil (Q * Q * Q), @nil Q)); [| exact He].
      intros s a e' _ Hstep. destruct (color_parses math a) eqn:Ha.
      - destruct (proj1 (color_step_outcome math s a) Ha) as [acc' Hok]. congruence.
      - rewrite (proj2 (color_step_outcome math s a) Ha) in Hstep. congruence. }
    rewrite He. reflexivity.
Qed.

Lemma extract_color_features_value_error_witness :
  extract_color_features rational_math (default [] (d_strokes bad_hex_drawing))
  = Raise ValueError.
Proof.
  apply (proj2 (extract_color_features_value_error rational_math _)).
  exists (mk_stroke "#GG0000" short_line).
  split; [apply list_elem_of_here | reflexivity].
Defined.

(** ** The palette size *)






(** ** The outcome of the composition extraction *)

Lemma quot_between (n d : Z) :
  (0 < d)%Z -> (n / d <= n ÷ d)%Z /\ (n ÷ d <= - (- n / d))%Z.
Proof.
  intros Hd.
  pose proof (Z.div_mod n d ltac:(lia)) as H1.
  pose proof (Z.mod_pos_bound n d Hd) as H2.
  pose proof (Z.div_mod (- n) d ltac:(lia)) as H3.
  pose proof (Z.mod_pos_bound (- n) d Hd) as H4.
  destruct (Z.le_gt_cases 0 n) as [Hn | Hn].
  - rewrite Z.quot_div_nonneg by lia. split; [lia | nia].
  - assert (n ÷ d = - (- n / d))%Z as ->.
    { rewrite <- (Z.opp_involutive n) at 1.
      rewrite Z.quot_opp_l by lia. rewrite Z.quot_div_nonneg by lia. reflexivity. }
    split; [nia | lia].
Qed.

Lemma py_int_lower (q : Q) (z : Z) : inject_Z z <= q -> (z <= py_int q)%Z.
Proof.
  intros Hz. apply Qfloor_resp_le in Hz. rewrite Qfloor_Z in Hz.
  destruct q as [n d]. unfold py_int, Qfloor in *. simpl in *.
  pose proof (quot_between n (Zpos d) ltac:(lia)). lia.
Qed.

Lemma py_int_upper (q : Q) (z : Z) : q <= inject_Z z -> (py_int q <= z)%Z.
Proof.
  intros Hz. apply Qceiling_resp_le in Hz. rewrite Qceiling_Z in Hz.
  destruct q as [n d]. unfold py_int, Qceiling, Qfloor, Qopp in *. simpl in *.
  pose proof (quot_between n (Zpos d) ltac:(lia)). lia.
Qed.

Lemma py_truediv_ok (a b : Q) : ~ b == 0 -> py_truediv a b = Ok (a / b).
Proof.
  intros Hb. unfold py_truediv, Qeqb. rewrite bool_decide_eq_false_2 by exact Hb.
  reflexivity.
Qed.

Lemma py_truediv_zero (a b : Q) : b == 0 -> py_truediv a b = Raise ZeroDivisionError.
Proof.
  intros Hb. unfold py_truediv, Qeqb. rewrite bool_decide_eq_true_2 by exact Hb.
  reflexivity.
Qed.

Lemma np_index_ok (n : nat) (i : Z) :
  (- Z.of_nat n <= i < Z.of_nat n)%Z ->
  exists i', np_index n i = Ok i' /\ (i' < n)%nat.
Proof.
  intros Hi. unfold np_index.
  destruct (Z.leb_spec (- Z.of_nat n) i); [| lia].
  destruct (Z.ltb_spec i (Z.of_nat n)); [| lia].
  eexists. split; [reflexivity |]. destruct (Z.ltb_spec i 0); lia.
Qed.

Lemma np_index_outcome (n : nat) (i : Z) :
  (exists i', np_index n i = Ok i' /\ (i' < n)%nat) \/ np_index n i = Raise IndexError.
Proof.
  unfold np_index. destruct (_ && _) eqn:H; [left | right; reflexivity].
  apply andb_true_iff in H as [H1 H2]. apply Z.leb_le in H1. apply Z.ltb_lt in H2.
  eexists. split; [reflexivity |]. destruct (Z.ltb_spec i 0); lia.
Qed.

Lemma np_index_low (n : nat) (i : Z) :
  (i < - Z.of_nat n)%Z -> np_index n i = Raise IndexError.
Proof.
  intros Hi. unfold np_index.
  destruct (Z.leb_spec (- Z.of_nat n) i); [lia | reflexivity].
Qed.

Lemma grid_incr_ok (rows cols : nat) (grid : list Q) (j i : Z) :
  (- Z.of_nat rows <= j < Z.of_nat rows)%Z ->
  (- Z.of_nat cols <= i < Z.of_nat cols)%Z ->
  exists grid', grid_incr rows cols grid j i = Ok grid'.
Proof.
  intros Hj Hi. unfold grid_incr.
  destruct (np_index_ok rows j Hj) as (j' & -> & _).
  destruct (np_index_ok cols i Hi) as (i' & -> & _).
  eexists. reflexivity.
Qed.

Lemma grid_incr_error (rows cols : nat) (grid : list Q) (j i : Z) (e : PyError) :
  grid_incr rows cols grid j i = Raise e -> e = IndexError.
Proof.
  unfold grid_incr.
  destruct (np_index_outcome rows j) as [(j' & -> & _) | ->]; [| intros [= <-]; reflexivity].
  destruct (np_index_outcome cols i) as [(i' & -> & _) | ->]; [| intros [= <-]; reflexivity].
  discriminate.
Qed.

Lemma grid_incr_low (rows cols : nat) (grid : list Q) (j i : Z) :
  (i < - Z.of_nat cols)%Z \/ (j < - Z.of_nat rows)%Z ->
  grid_incr rows cols grid j i = Raise IndexError.
Proof.
  intros H. unfold grid_incr.
  destruct (np_index_outcome rows j) as [(j' & Hj & _) | ->]; [| reflexivity].
  destruct H as [H | H]; [| rewrite (np_index_low _ _ H) in Hj; discriminate Hj].
  rewrite Hj, bind_ok, (np_index_low _ _ H). reflexivity.
Qed.

Lemma third_pos (c : Q) : 0 < c -> 0 < c / 3.
Proof. intros Hc. apply Qlt_shift_div_l; [reflexivity | lra]. Qed.

Lemma entropy_index_range (x c : Q) :
  0 < c -> - c <= x ->
  (-10 <= Z.min (py_int (x / c * Qnat 10)) (Z.of_nat 10 - 1) < 10)%Z.
Proof.
  intros Hc Hx. split; [| lia]. apply Z.min_glb; [| lia].
  apply py_int_lower. change (Qnat 10) with 10. change (inject_Z (-10)) with (-10).
  assert (-1 <= x / c) by (apply Qle_shift_div_l; [exact Hc | lra]). lra.
Qed.

Lemma thirds_index_range (x c : Q) :
  0 < c -> - c <= x ->
  (-3 <= Z.min (py_int (x / (c / 3))) 2 < 3)%Z.
Proof.
  intros Hc Hx. split; [| lia]. apply Z.min_glb; [| lia].
  apply py_int_lower. change (inject_Z (-3)) with (-3).
  apply Qle_shift_div_l; [apply third_pos; exact Hc |].
  assert (-3 * (c / 3) == - c) as -> by (field). exact Hx.
Qed.

Lemma extract_composition_features_succeeds
    (math : MathLib) (strokes : list Stroke) (canvas_w canvas_h : Q) :
  0 < canvas_w -> 0 < canvas_h ->
  (forall x y, (x, y) ∈ collect_points strokes -> - canvas_w <= x /\ - canvas_h <= y) ->
  exists comp, extract_composition_features math strokes canvas_w canvas_h = Ok comp.
Proof.
  intros Hw Hh Hpts.
  unfold extract_composition_features.
  destruct (collect_points strokes) as [| xy pts] eqn:Hcollect; [eexists; reflexivity |].
  cbv zeta. rewrite !py_truediv_ok by (intros Hz0; rewrite Hz0 in *; lra).
  rewrite !bind_ok.
  match goal with
  | |- context [for_each ?body (xy :: pts) (np_zeros 10 10)] =>
      destruct (for_each_ok body (xy :: pts)) with (s := np_zeros 10 10) as [grid ->]
  end.
  { intros g [x y] Hin. destruct (Hpts x y Hin) as [Hx Hy].
    rewrite !py_truediv_ok by (intros Hz0; rewrite Hz0 in *; lra). rewrite !bind_ok.
    apply grid_incr_ok; apply entropy_index_range; assumption. }
  rewrite bind_ok.
  match goal with
  | |- context [for_each ?body (xy :: pts) (np_zeros 3 3)] =>
      destruct (for_each_ok body (xy :: pts)) with (s := np_zeros 3 3) as [thirds ->]
  end.
  { intros g [x y] Hin. destruct (Hpts x y Hin) as [Hx Hy].
    pose proof (third_pos _ Hw). pose proof (third_pos _ Hh).
    rewrite !py_truediv_ok by (intros Hz0; rewrite Hz0 in *; lra). rewrite !bind_ok.
    apply grid_incr_ok; apply thirds_index_range; assumption. }
  rewrite bind_ok. eexists. reflexivity.
Qed.


Lemma dot_stroke_points (x y : Q) :
  (x, y) ∈ collect_points [dot_stroke] -> - 800 <= x /\ - 600 <= y.
Proof.
  intros Hin. change (collect_points [dot_stroke]) with [(400, 300)] in Hin.
  apply list_elem_of_singleton in Hin. injection Hin as -> ->. split; compute_done.
Qed.


(** X20: a canvas of width or height 0 makes the composition extraction raise
    [ZeroDivisionError] as soon as some stroke has a point. *)
Theorem extract_composition_features_zero_canvas
    (math : MathLib) (strokes : list Stroke) (canvas_w canvas_h : Q) :
  canvas_w == 0 \/ canvas_h == 0 ->
  collect_points strokes <> [] ->
  extract_composition_features math strokes canvas_w canvas_h
  = Raise ZeroDivisionError.
Proof.
  intros Hzero Hne. unfold extract_composition_features.
  destruct (collect_points strokes) as [| xy pts]; [congruence |]. cbv zeta.
  destruct (decide (canvas_w == 0)) as [Hw | Hw].
  - rewrite (py_truediv_zero _ _ Hw). reflexivity.
  - destruct Hzero as [Hzero | Hzero]; [contradiction |].
    rewrite (py_truediv_ok _ _ Hw), bind_ok, (py_truediv_zero _ _ Hzero). reflexivity.
Qed.

(** X21: on a canvas of width and height other than 0, a point so far to
    the left of the canvas, or above it, that its cell
    index is below -10 makes the composition extraction raise
    [IndexError]. *)
Theorem extract_composition_features_index_error
    (math : MathLib) (strokes : list Stroke) (canvas_w canvas_h x y : Q) :
  ~ canvas_w == 0 -> ~ canvas_h == 0 ->
  (x, y) ∈ collect_points strokes ->
  x / canvas_w * 10 <= -11 \/ y / canvas_h * 10 <= -11 ->
  extract_composition_features math strokes canvas_w canvas_h = Raise IndexError.
Proof.
  intros Hw Hh Hin Hfar. unfold extract_composition_features.
  destruct (collect_points strokes) as [| xy pts] eqn:Hcollect;
    [apply elem_of_nil in Hin; contradiction |].
  cbv zeta. rewrite !py_truediv_ok by assumption. rewrite !bind_ok.
  match goal with
  | |- context [for_each ?body (xy :: pts) (np_zeros 10 10)] =>
      destruct (for_each_raises body (xy :: pts) (x, y) Hin) with (s := np_zeros 10 10)
        as [e He];
      [| assert (e = IndexError) as ->;
         [apply (for_each_error body (xy :: pts) (fun e => e = IndexError))
            with (s := np_zeros 10 10); [| exact He] |
          rewrite He; reflexivity]]
  end.
  - intros g. exists IndexError. cbv beta iota.
    rewrite !py_truediv_ok by assumption. rewrite !bind_ok.
    apply grid_incr_low. change (Qnat 10) with 10.
    destruct Hfar as [Hfar | Hfar]; [left | right];
      (eapply Z.le_lt_trans; [apply Z.le_min_l |]);
      (eapply Z.le_lt_trans; [apply (py_int_upper _ (-11)); exact Hfar | reflexivity]).
  - intros g [x' y'] e' _. cbv beta iota.
    rewrite !py_truediv_ok by assumption. rewrite !bind_ok.
    apply grid_incr_error.
Qed.

Lemma extract_composition_features_zero_canvas_witness :
  extract_composition_features rational_math [dot_stroke] 0 600
  = Raise ZeroDivisionError.
Proof.
  apply extract_composition_features_zero_canvas; [left; reflexivity | discriminate].
Defined.

Lemma extract_composition_features_index_error_witness :
  extract_composition_features rational_math [far_left_stroke] 800 600
  = Raise IndexError.
Proof.
  apply (extract_composition_features_index_error rational_math
           [far_left_stroke] 800 600 (-1000) 100).
  - discriminate.
  - discriminate.
  - apply list_elem_of_here.
  - left. compute_done.
Defined.

(** ** The ranges of the composition features *)

Lemma np_zeros_counts (rows cols : nat) : counts (rows * cols) (np_zeros rows cols).
Proof.
  unfold counts, np_zeros. split; [apply length_replicate |].
  intros k c Hk. apply lookup_replicate in Hk as [-> _]. apply Qle_refl.
Qed.

Lemma grid_incr_counts (rows cols : nat) (grid grid' : list Q) (j i : Z) :
  counts (rows * cols) grid ->
  grid_incr rows cols grid j i = Ok grid' ->
  counts (rows * cols) grid' /\ occupied grid'
  /\ (occupied grid -> occupied grid').
Proof.
  intros [Hlen Hnonneg] H. unfold grid_incr in H.
  destruct (np_index_outcome rows j) as [(j' & Hj & Hj') | Hj];
    rewrite Hj in H; [rewrite bind_ok in H | discriminate H].
  destruct (np_index_outcome cols i) as [(i' & Hi & Hi') | Hi];
    rewrite Hi in H; [rewrite bind_ok in H | discriminate H].
  injection H as <-.
  set (idx := (j' * cols + i')%nat).
  assert (idx < length grid)%nat as Hidx by (rewrite Hlen; unfold idx; nia).
  destruct (lookup_lt_is_Some_2 grid idx Hidx) as [c0 Hc0].
  assert (forall k c, alter (Qplus 1) idx grid !! k = Some c ->
                      exists c', grid !! k = Some c' /\ c' <= c) as Hgrow.
  { intros k c Hk. destruct (decide (idx = k)) as [<- | Hne].
    - rewrite list_lookup_alter_eq, Hc0 in Hk. injection Hk as <-.
      exists c0. split; [exact Hc0 | lra].
    - rewrite list_lookup_alter_ne in Hk by exact Hne.
      exists c. split; [exact Hk | apply Qle_refl]. }
  split; [| split].
  - split; [rewrite length_alter; exact Hlen |].
    intros k c Hk. destruct (Hgrow k c Hk) as (c' & Hc' & Hle).
    specialize (Hnonneg k c' Hc'). lra.
  - exists idx, (1 + c0). split.
    + rewrite list_lookup_alter_eq, Hc0. reflexivity.
    + specialize (Hnonneg idx c0 Hc0). lra.
  - intros (k & c & Hk & Hc). destruct (decide (idx = k)) as [<- | Hne].
    + exists idx, (1 + c0). split.
      * rewrite list_lookup_alter_eq, Hc0. reflexivity.
      * specialize (Hnonneg idx c0 Hc0). lra.
    + exists k, c. split; [| exact Hc].
      rewrite list_lookup_alter_ne by exact Hne. exact Hk.
Qed.

Lemma count_where_occupied (grid : list Q) :
  occupied grid ->
  (1 <= count_where (fun c => negb (Qeqb c 0)) grid <= length grid)%nat.
Proof.
  intros (k & c & Hk & Hc). unfold count_where. split; [| apply length_filter].
  assert (c ∈ filter (fun c => negb (Qeqb c 0) = true) grid) as Hin.
  { apply list_elem_of_filter. split; [| apply (list_elem_of_lookup_2 _ _ _ Hk)].
    unfold Qeqb. rewrite bool_decide_eq_false_2; [reflexivity |].
    intros H0. rewrite H0 in Hc. apply (Qlt_irrefl _ Hc). }
  destruct (filter _ grid); [apply elem_of_nil in Hin; contradiction | simpl; lia].
Qed.

Lemma Qnat_plus (a b : nat) : Qnat (a + b) == Qnat a + Qnat b.
Proof. unfold Qnat. rewrite Nat2Z.inj_add, inject_Z_plus. reflexivity. Qed.

Lemma Qnat_nonneg (n : nat) : 0 <= Qnat n.
Proof. unfold Qnat. rewrite <- (Zle_Qle 0). lia. Qed.

Lemma symmetry_range (l r : nat) :
  0 <= 1.0 - Qabs (Qnat l - Qnat r) / (Qnat (l + r) + 1e-10)
  /\ 1.0 - Qabs (Qnat l - Qnat r) / (Qnat (l + r) + 1e-10) <= 1.
Proof.
  pose proof (Qnat_nonneg l) as Hl. pose proof (Qnat_nonneg r) as Hr.
  assert (0 < 1e-10) as Heps by reflexivity.
  assert (0 <= Qabs (Qnat l - Qnat r)) as Habs0 by apply Qabs_nonneg.
  assert (Qabs (Qnat l - Qnat r) <= Qnat l + Qnat r) as Habs.
  { apply Qabs_case; intros; lra. }
  rewrite Qnat_plus. set (d := Qnat l + Qnat r + 1e-10).
  assert (0 < d) as Hd by (unfold d; lra).
  assert (0 <= Qabs (Qnat l - Qnat r) / d) by (apply Qle_shift_div_l; [exact Hd | lra]).
  assert (Qabs (Qnat l - Qnat r) / d <= 1)
    by (apply Qle_shift_div_r; [exact Hd | unfold d; lra]).
  assert (1.0 == 1) as -> by reflexivity. split; lra.
Qed.

(** X22: in a vector that the composition extraction returns for a drawing with
    points, the vertical symmetry lies in [[0, 1]] and the number of
    occupied thirds is a whole number from 1 to 9. *)
Theorem extract_composition_features_ranges
    (math : MathLib) (strokes : list Stroke) (canvas_w canvas_h : Q)
    (comp : gmap string Q) :
  extract_composition_features math strokes canvas_w canvas_h = Ok comp ->
  collect_points strokes <> [] ->
  exists (symmetry : Q) (thirds : nat),
    comp !! "comp.vertical_symmetry"%string = Some symmetry
    /\ 0 <= symmetry /\ symmetry <= 1
    /\ comp !! "comp.thirds_occupied"%string = Some (Qnat thirds)
    /\ (1 <= thirds <= 9)%nat.
Proof.
  unfold extract_composition_features. intros H Hne.
  destruct (collect_points strokes) as [| xy pts]; [congruence |]. cbv zeta in H.
  do 4 step_bind H. injection H as <-.
  eexists _, _. split; [apply lookup_insert_eq |].
  split; [apply symmetry_range |]. split; [apply symmetry_range |].
  split; [rewrite lookup_insert_ne by discriminate; apply lookup_insert_eq |].
  match goal with
  | Hloop : for_each ?body (xy :: pts) (np_zeros 3 3) = Ok ?grid |- _ =>
      assert (counts 9 grid /\ occupied grid) as [[Hlen _] Hocc];
      [simpl in Hloop; step_bind Hloop;
       match goal with
       | Hfirst : _ = Ok ?g1 |- _ =>
           assert (counts 9 g1 /\ occupied g1) as Hg1;
           [destruct xy as [x y]; do 2 step_bind Hfirst;
            destruct (grid_incr_counts 3 3 _ _ _ _ (np_zeros_counts 3 3) Hfirst)
              as (? & ? & _); split; assumption |];
           apply (for_each_invariant body pts
                    (fun g => counts 9 g /\ occupied g)) with (s := g1);
           [| exact Hg1 | exact Hloop];
           intros g [x y] g' [Hc Ho] Hstep; do 2 step_bind Hstep;
           destruct (grid_incr_counts 3 3 _ _ _ _ Hc Hstep) as (? & ? & _);
           split; assumption
       end |]
  end.
  pose proof (count_where_occupied _ Hocc) as Hcount. rewrite Hlen in Hcount.
  exact Hcount.
Qed.

Lemma extract_composition_features_ranges_witness :
  exists (symmetry : Q) (thirds : nat),
    vector_of (extract_composition_features rational_math [dot_stroke] 800 600)
      !! "comp.vertical_symmetry"%string = Some symmetry
    /\ 0 <= symmetry /\ symmetry <= 1
    /\ vector_of (extract_composition_features rational_math [dot_stroke] 800 600)
         !! "comp.thirds_occupied"%string = Some (Qnat thirds)
    /\ (1 <= thirds <= 9)%nat.
Proof.
  apply (extract_composition_features_ranges rational_math [dot_stroke] 800 600).
  - destruct (extract_composition_features_succeeds rational_math [dot_stroke] 800 600)
      as [comp ->]; [reflexivity | reflexivity | exact dot_stroke_points |].
    reflexivity.
  - discriminate.
Defined.

(** ** What the geometry extraction measures *)



(** ** The quality flags *)




(** ** The layering features *)

(** X27: for a drawing with strokes the eraser ratio lies in [[0, 1]] and the
    mean layer lies between the smallest and the largest layer index. *)
Theorem extract_layering_features_ranges
    (math : MathLib) (strokes : list Stroke) (lo hi : Q) :
  strokes <> [] ->
  Forall (fun stroke => lo <= default 0 (s_layer stroke)
                        /\ default 0 (s_layer stroke) <= hi) strokes ->
  exists ratio mean,
    extract_layering_features math strokes !! "layer.eraser_ratio"%string = Some ratio
    /\ 0 <= ratio /\ ratio <= 1
    /\ extract_layering_features math strokes !! "layer.mean"%string = Some mean
    /\ lo <= mean /\ mean <= hi.
Proof.
  intros Hne Hall. unfold extract_layering_features.
  destruct strokes as [| s strokes]; [congruence |].
  set (all := s :: strokes) in *.
  assert (0 < Qnat (length all)) as Hn by (apply Qnat_pos; simpl; lia).
  eexists _, _. split; [apply lookup_insert_eq |].
  assert (count_where (fun stroke => bool_decide (s_tool stroke = Some "eraser"%string)) all
          <= length all)%nat as Hcount by apply length_filter.
  split; [| split; [| split]].
  - apply Qle_shift_div_l; [exact Hn |]. rewrite Qmult_0_l. apply Qnat_nonneg.
  - apply Qle_shift_div_r; [exact Hn |]. rewrite Qmult_1_l.
    unfold Qnat. rewrite <- Zle_Qle. lia.
  - rewrite lookup_insert_ne by discriminate.
    change (map (fun stroke => default 0 (s_layer stroke)) all)
      with (default 0 (s_layer s)
            :: map (fun stroke => default 0 (s_layer stroke)) strokes).
    cbv iota. rewrite lookup_insert_ne by discriminate. apply lookup_insert_eq.
  - apply np_mean_bounds; [discriminate |].
    change (Forall (fun v => lo <= v /\ v <= hi)
              (map (fun stroke => default 0 (s_layer stroke)) all)).
    apply Forall_fmap. exact Hall.
Qed.

Lemma extract_layering_features_ranges_witness :
  exists ratio mean,
    extract_layering_features rational_math two_layer_strokes
      !! "layer.eraser_ratio"%string = Some ratio
    /\ 0 <= ratio /\ ratio <= 1
    /\ extract_layering_features rational_math two_layer_strokes
         !! "layer.mean"%string = Some mean
    /\ 0 <= mean /\ mean <= 2.
Proof.
  apply extract_layering_features_ranges; [discriminate |].
  repeat constructor; compute_done.
Defined.

(** ** The whole extraction *)

Lemma extract_features_keys_witness :
  dom (vector_of (extract_features rational_math blank_stroke_drawing))
  = if decide (collect_points [mk_stroke "#000000" []] = [])
    then list_to_set vocabulary ∖ list_to_set comp_keys
    else list_to_set vocabulary.
Proof.
  apply (extract_features_keys rational_math blank_stroke_drawing
           [mk_stroke "#000000" []]); [reflexivity | discriminate |].
  assert (is_ok (extract_features rational_math blank_stroke_drawing) = true) as Hok
    by compute_done.
  destruct (extract_features rational_math blank_stroke_drawing);
    [reflexivity | discriminate Hok].
Defined.

Lemma compute_robust_baseline_keys_witness :
  is_Some (compute_robust_baseline rational_math five_session_history 30 !! "x"%string).
Proof.
  apply compute_robust_baseline_keys.
  exists {[ "x"%string := 1 ]}. split; [apply list_elem_of_here |].
  rewrite lookup_singleton_eq. eexists. reflexivity.
Defined.

Lemma identify_top_contributing_features_spec_witness :
  length (identify_top_contributing_features
            [("a", 1); ("b", -3); ("c", 2)]%string 2) = 2%nat.
Proof.
  destruct (identify_top_contributing_features_spec
              [("a", 1); ("b", -3); ("c", 2)]%string 2) as (rest & _ & _ & _ & Hlen).
  apply Hlen. lia.
Defined.


Example identify_top_contributing_features_ties :
  identify_top_contributing_features
    [("a", 1); ("b", -3); ("c", -1); ("d", 3)]%string 5
  = [("b", -3); ("d", 3); ("a", 1); ("c", -1)]%string.
Proof. reflexivity. Qed.

(** ** The centroid *)

Lemma normalized_mean_range (l : list Q) (c q : Q) :
  0 < c -> l <> [] ->
  Forall (fun v => 0 <= v /\ v <= c) l ->
  py_truediv (py_sum l / Qnat (length l)) c = Ok q ->
  0 <= q /\ q <= 1.
Proof.
  intros Hc Hne Hall Hq.
  rewrite py_truediv_ok in Hq by (intros Hz0; rewrite Hz0 in Hc; apply (Qlt_irrefl _ Hc)).
  injection Hq as <-.
  destruct (np_mean_bounds 0 c l Hne Hall) as [Hlo Hhi]. unfold np_mean in Hlo, Hhi.
  split.
  - apply Qle_shift_div_l; [exact Hc | lra].
  - apply Qle_shift_div_r; [exact Hc | lra].
Qed.

(** X28: when the composition extraction returns a vector for points that
    all lie on a canvas of positive width and height, the two centroid
    coordinates lie in [[0, 1]]. *)
Theorem extract_composition_features_centroid
    (math : MathLib) (strokes : list Stroke) (canvas_w canvas_h : Q)
    (comp : gmap string Q) :
  extract_composition_features math strokes canvas_w canvas_h = Ok comp ->
  collect_points strokes <> [] ->
  0 < canvas_w -> 0 < canvas_h ->
  (forall x y, (x, y) ∈ collect_points strokes ->
     (0 <= x /\ x <= canvas_w) /\ (0 <= y /\ y <= canvas_h)) ->
  exists cx cy,
    comp !! "comp.centroid_x"%string = Some cx /\ 0 <= cx /\ cx <= 1
    /\ comp !! "comp.centroid_y"%string = Some cy /\ 0 <= cy /\ cy <= 1.
Proof.
  unfold extract_composition_features. intros H Hne Hw Hh Hpts.
  assert (Forall (fun v => 0 <= v /\ v <= canvas_w) (map fst (collect_points strokes))
          /\ Forall (fun v => 0 <= v /\ v <= canvas_h) (map snd (collect_points strokes)))
    as [Hxs Hys].
  { split; apply Forall_fmap, Forall_forall; intros [x y] Hin;
      apply (Hpts x y Hin). }
  assert (length (map fst (collect_points strokes)) = length (collect_points strokes)
          /\ length (map snd (collect_points strokes)) = length (collect_points strokes))
    as [Hlx Hly] by (split; apply length_map).
  destruct (collect_points strokes) as [| xy pts]; [congruence |]. cbv zeta in H.
  do 4 step_bind H. injection H as <-.
  match goal with
  | Hx : py_truediv (py_sum (map fst _) / _) canvas_w = Ok ?cx,
    Hy : py_truediv (py_sum (map snd _) / _) canvas_h = Ok ?cy |- _ =>
      rename Hx into Hcx; rename Hy into Hcy; exists cx, cy
  end.
  rewrite <- Hlx in Hcx. rewrite <- Hly in Hcy.
  assert (map fst (xy :: pts) <> []) as Hnx by discriminate.
  assert (map snd (xy :: pts) <> []) as Hny by discriminate.
  destruct (normalized_mean_range _ _ _ Hw Hnx Hxs Hcx) as [Hx0 Hx1].
  destruct (normalized_mean_range _ _ _ Hh Hny Hys Hcy) as [Hy0 Hy1].
  split; [| split; [exact Hx0 | split; [exact Hx1 | split; [| split; [exact Hy0 | exact Hy1]]]]].
  - do 4 (rewrite lookup_insert_ne by discriminate). apply lookup_insert_eq.
  - do 3 (rewrite lookup_insert_ne by discriminate). apply lookup_insert_eq.
Qed.

Lemma dot_stroke_on_canvas (x y : Q) :
  (x, y) ∈ collect_points [dot_stroke] ->
  (0 <= x /\ x <= 800) /\ (0 <= y /\ y <= 600).
Proof.
  intros Hin. change (collect_points [dot_stroke]) with [(400, 300)] in Hin.
  apply list_elem_of_singleton in Hin. injection Hin as -> ->.
  repeat split; compute_done.
Qed.

Lemma extract_composition_features_centroid_witness :
  exists cx cy,
    vector_of (extract_composition_features rational_math [dot_stroke] 800 600)
      !! "comp.centroid_x"%string = Some cx /\ 0 <= cx /\ cx <= 1
    /\ vector_of (extract_composition_features rational_math [dot_stroke] 800 600)
         !! "comp.centroid_y"%string = Some cy /\ 0 <= cy /\ cy <= 1.
Proof.
  apply (extract_composition_features_centroid rational_math [dot_stroke] 800 600);
    [| discriminate | reflexivity | reflexivity | exact dot_stroke_on_canvas].
  destruct (extract_composition_features_succeeds rational_math [dot_stroke] 800 600)
    as [comp ->]; [reflexivity | reflexivity | exact dot_stroke_points |].
  reflexivity.
Defined.
